(** * go-salesforce: session refresh and record operations

    A shallow embedding of [auth.go] (grant flows, [refreshSession]) and of
    the record operations file ([convertToMap], [convertToSliceOfMaps], the
    single-record and the composite [do...] functions), with the effects the
    functions have written out: calls to [json.Marshal], [doRequest] and
    [http.Post] are logged, run-time panics are an outcome of their own. *)

From stdpp Require Import gmap strings list fin_maps sorting.

Set Warnings "-register-all".
Local Open Scope string_scope.
Local Open Scope list_scope.

(** ** Go values *)

(** Dynamic values of type [any].  A Go map is a reference that may be
    [nil]: [VMap None] is the nil [map[string]any], on which reading and
    [delete] are fine and assignment panics. *)
Inductive any : Type :=
| VNil
| VString (s : string)
| VBool (b : bool)
| VInt (n : Z)
| VMapString (m : gmap string string)
| VMap (m : option (gmap string any))
| VSliceOfMaps (l : list (option (gmap string any)))
| VSlice (l : list any)
| VStruct (fields : list (string * any)).

(** [map[string]any] *)
Abbreviation gomap := (option (gmap string any)).

(** ** Errors *)

(** Modelled from the spec: the per-record outcome list of a composite
    response (section 3, Batch Result) and the aggregate error built from it
    (sections 4.4 and 7); their declarations are in the part of the
    repository that holds [processSalesforceResponse]. *)
Record ErrorDescriptor : Type := mkErrorDescriptor {
  errorCode : string;
  message : string
}.

Inductive RecordOutcome : Type :=
| Succeeded (id : option string)
| Failed (e : ErrorDescriptor) (es : list ErrorDescriptor).

Record FailedRecord : Type := mkFailedRecord {
  index : nat;
  descriptors : list ErrorDescriptor
}.

(** A Go [error] value: [errors.New text], or the aggregate of a composite
    response. *)
Inductive error : Type :=
| errors_New (text : string)
| RemoteErrors (failed : list FailedRecord).

(** ** Outcomes and effects *)

Inductive outcome (A : Type) : Type :=
| Ret (a : A)
| Panic (msg : string).
Arguments Ret {A} a.
Arguments Panic {A} msg.

Definition obind {A B : Type} (o : outcome A) (k : A -> outcome B) : outcome B :=
  match o with
  | Ret a => k a
  | Panic msg => Panic msg
  end.

(** README: [type Auth struct]; the record operations only pass it on. *)
Record Auth : Type := mkAuth {
  auth_AccessToken : string;
  auth_InstanceUrl : string;
  auth_Id : string;
  auth_IssuedAt : string;
  auth_Signature : string
}.

(** What a run does to the outside: serialisations and network calls. *)
Inductive event : Type :=
| Marshal (v : any)
| Request (method uri content : string) (auth : Auth) (body : string)
| Post (url contentType body : string).

(** A computation reads the history of the process so far and yields an
    outcome together with the events it emitted itself. *)
Definition M (A : Type) : Type := list event -> outcome A * list event.

Definition ret {A : Type} (a : A) : M A := fun _ => (Ret a, []).

Definition bind {A B : Type} (m : M A) (k : A -> M B) : M B :=
  fun h =>
    match m h with
    | (Ret a, evs) =>
        match k a (h ++ evs) with
        | (o, evs') => (o, evs ++ evs')
        end
    | (Panic msg, evs) => (Panic msg, evs)
    end.

Definition lift {A : Type} (o : outcome A) : M A := fun _ => (o, []).

(** Both are used with stdpp's monad notation: [x ← m; k]. *)
#[global] Instance outcome_ret : MRet outcome := @Ret.
#[global] Instance outcome_bind : MBind outcome := fun A B k o => obind o k.
#[global] Instance M_ret : MRet M := @ret.
#[global] Instance M_bind : MBind M := fun A B k m => bind m k.

(** ** Go primitives used by the code *)

(** [m[k]]: the zero value [nil] when the key is absent or the map is nil. *)
Definition go_index (m : gomap) (k : string) : any :=
  match m with
  | Some m => default VNil (m !! k)
  | None => VNil
  end.

(** [v.(string)] in its two-result form. *)
Definition assert_string (v : any) : string * bool :=
  match v with
  | VString s => (s, true)
  | _ => ("", false)
  end.

(** [delete(m, k)] *)
Definition go_delete (m : gomap) (k : string) : gomap := delete k <$> m.

(** [m[k] = v] *)
Definition go_assign (m : gomap) (k : string) (v : any) : outcome gomap :=
  match m with
  | Some m => Ret (Some (<[k := v]> m))
  | None => Panic "assignment to entry in nil map"
  end.

(** [strconv.FormatBool] *)
Definition FormatBool (b : bool) : string := if b then "true" else "false".

(** [net/http] status codes *)
Definition StatusOK : Z := 200.
Definition StatusCreated : Z := 201.
Definition StatusNoContent : Z := 204.

(** [http.Response]; [Body] is what [io.ReadAll(resp.Body)] yields. *)
Record Response : Type := mkResponse {
  Status : string;
  StatusCode : Z;
  Body : string * option error
}.

(** [resp.StatusCode] through a [*http.Response] *)
Definition deref {A : Type} (p : option A) : outcome A :=
  match p with
  | Some a => Ret a
  | None => Panic "invalid memory address or nil pointer dereference"
  end.

(** ** Record operations *)

(** What the record operations call and the files at hand do not define:
    the [mapstructure] decoder at the two target types, [json.Marshal],
    the transport helper [doRequest] (a function of the history, so a server
    may answer differently over time), [processSalesforceError], the JSON
    reading of a composite response body and the constant [jsonType]. *)
Class RecordCollaborators : Type := {
  mapstructure_Decode_map : any -> gomap * option error;
  mapstructure_Decode_slice : any -> list gomap * option error;
  json_Marshal : any -> string * option error;
  doRequest : list event -> string -> string -> string -> Auth -> string ->
              option Response * option error;
  processSalesforceError : Response -> option error;
  responseOutcomes : Response -> list RecordOutcome;
  jsonType : string
}.

Definition call_Marshal {RC : RecordCollaborators} (v : any) : M (string * option error) :=
  fun _ => (Ret (json_Marshal v), [Marshal v]).

Definition call_doRequest {RC : RecordCollaborators}
    (method uri content : string) (auth : Auth) (body : string) :
    M (option Response * option error) :=
  fun h => (Ret (doRequest h method uri content auth body),
            [Request method uri content auth body]).

Record sObjectCollection : Type := mksObjectCollection {
  AllOrNone : string;
  Records : list gomap
}.

(** The struct value boxed as [any] for [json.Marshal]. *)
Definition box_sObjectCollection (p : sObjectCollection) : any :=
  VStruct [("AllOrNone", VString (AllOrNone p)); ("Records", VSliceOfMaps (Records p))].

Definition decodeError : error :=
  errors_New "issue decoding salesforce object, need a key value pair (custom struct or map)".

Definition convertToMap {RC : RecordCollaborators} (obj : any) : gomap * option error :=
  match obj with
  | VMap recordMap => (recordMap, None)
  | _ =>
      match mapstructure_Decode_map obj with
      | (_, Some _) => (None, Some decodeError)
      | (recordMap, None) => (recordMap, None)
      end
  end.

(** The first branch asserts [obj.([]map[string]any)] on a value whose
    dynamic type was just found to be [map[string]any]: the single-result
    assertion panics. *)
Definition convertToSliceOfMaps {RC : RecordCollaborators} (obj : any) :
    outcome (list gomap * option error) :=
  match obj with
  | VMap _ =>
      Panic "interface conversion: interface {} is map[string]interface {}, not []map[string]interface {}"
  | _ =>
      match mapstructure_Decode_slice obj with
      | (_, Some _) => Ret ([], Some decodeError)
      | (recordMap, None) => Ret (recordMap, None)
      end
  end.

(** [map[string]string{"type": sObjectName}] *)
Definition attributes (sObjectName : string) : any :=
  VMapString {[ "type" := sObjectName ]}.

Definition idNotFound : error := errors_New "salesforce id not found in object data".

Definition externalIdNotFound (fieldName sObjectName : string) : error :=
  errors_New ("salesforce externalId: " +:+ fieldName +:+ " not found in " +:+ sObjectName
              +:+ " data. make sure to append custom fields with '__c'").

Definition tooManyRecords : error :=
  errors_New "salesforce composite api call supports up to 200 records at once".

Definition doInsertOne {RC : RecordCollaborators}
    (auth : Auth) (sObjectName : string) (record : any) : M (option error) :=
  match convertToMap record with
  | (_, Some err) => ret (Some err)
  | (recordMap, None) =>
      recordMap ← lift (go_assign recordMap "attributes" (attributes sObjectName));
      let recordMap := go_delete recordMap "Id" in
      '(body, err) ← call_Marshal (VMap recordMap);
      match err with
      | Some err => ret (Some err)
      | None =>
          '(resp, err) ← call_doRequest "POST" ("/sobjects/" +:+ sObjectName) jsonType auth body;
          match err with
          | Some err => ret (Some err)
          | None =>
              resp ← lift (deref resp);
              if negb (StatusCode resp =? StatusCreated)%Z
              then ret (processSalesforceError resp)
              else ret None
          end
      end
  end.

Definition doUpdateOne {RC : RecordCollaborators}
    (auth : Auth) (sObjectName : string) (record : any) : M (option error) :=
  match convertToMap record with
  | (_, Some err) => ret (Some err)
  | (recordMap, None) =>
      let '(recordId, ok) := assert_string (go_index recordMap "Id") in
      if negb ok || (recordId =? "")%string then ret (Some idNotFound) else
      recordMap ← lift (go_assign recordMap "attributes" (attributes sObjectName));
      let recordMap := go_delete recordMap "Id" in
      '(body, err) ← call_Marshal (VMap recordMap);
      match err with
      | Some err => ret (Some err)
      | None =>
          '(resp, err) ← call_doRequest "PATCH" ("/sobjects/" +:+ sObjectName +:+ "/" +:+ recordId)
                                        jsonType auth body;
          match err with
          | Some err => ret (Some err)
          | None =>
              resp ← lift (deref resp);
              if negb (StatusCode resp =? StatusNoContent)%Z
              then ret (processSalesforceError resp)
              else ret None
          end
      end
  end.

Definition doUpsertOne {RC : RecordCollaborators}
    (auth : Auth) (sObjectName fieldName : string) (record : any) : M (option error) :=
  match convertToMap record with
  | (_, Some err) => ret (Some err)
  | (recordMap, None) =>
      let '(externalIdValue, ok) := assert_string (go_index recordMap fieldName) in
      if negb ok || (externalIdValue =? "")%string
      then ret (Some (externalIdNotFound fieldName sObjectName)) else
      recordMap ← lift (go_assign recordMap "attributes" (attributes sObjectName));
      let recordMap := go_delete recordMap "Id" in
      let recordMap := go_delete recordMap fieldName in
      '(body, err) ← call_Marshal (VMap recordMap);
      match err with
      | Some err => ret (Some err)
      | None =>
          '(resp, err) ← call_doRequest "PATCH"
                           ("/sobjects/" +:+ sObjectName +:+ "/" +:+ fieldName +:+ "/" +:+ externalIdValue)
                           jsonType auth body;
          match err with
          | Some err => ret (Some err)
          | None =>
              resp ← lift (deref resp);
              if negb (StatusCode resp =? StatusOK)%Z
              then ret (processSalesforceError resp)
              else ret None
          end
      end
  end.

Definition doDeleteOne {RC : RecordCollaborators}
    (auth : Auth) (sObjectName : string) (record : any) : M (option error) :=
  match convertToMap record with
  | (_, Some err) => ret (Some err)
  | (recordMap, None) =>
      let '(recordId, ok) := assert_string (go_index recordMap "Id") in
      if negb ok || (recordId =? "")%string then ret (Some idNotFound) else
      '(resp, err) ← call_doRequest "DELETE" ("/sobjects/" +:+ sObjectName +:+ "/" +:+ recordId)
                                    jsonType auth "";
      match err with
      | Some err => ret (Some err)
      | None =>
          resp ← lift (deref resp);
          if negb (StatusCode resp =? StatusNoContent)%Z
          then ret (processSalesforceError resp)
          else ret None
      end
  end.

(** Modelled from the spec: [processSalesforceResponse], which the composite
    operations call and which is defined in another file.  Section 4.4: the
    body of a composite response is a per-record ordered outcome list; any
    record reporting failure makes the call fail with an aggregated error
    enumerating every failing record's index, codes and messages, and the
    scan does not stop at the first failure. *)
Fixpoint collectFailures (i : nat) (results : list RecordOutcome) : list FailedRecord :=
  match results with
  | [] => []
  | Succeeded _ :: rest => collectFailures (S i) rest
  | Failed e es :: rest => mkFailedRecord i (e :: es) :: collectFailures (S i) rest
  end.

(** Modelled from the spec: see [collectFailures]; no failing record, no
    error. *)
Definition processSalesforceResponse {RC : RecordCollaborators} (resp : Response) : option error :=
  match collectFailures 0 (responseOutcomes resp) with
  | [] => None
  | failed => Some (RemoteErrors failed)
  end.

(** The loops below are over values.  Nothing is lost by it: the decoder
    hands out the maps of the slice, each loop body does the same to a map
    however often it runs on it, and no claim is about what the caller's own
    maps look like after the call.  A slice is a list; [nil] and the empty
    slice, which the code does not tell apart, are both [[]]. *)

(** [for i := range recordMap] of [doInsertCollection] *)
Fixpoint insertLoop (sObjectName : string) (recordMap : list gomap) : outcome (list gomap) :=
  match recordMap with
  | [] => Ret []
  | r :: rest =>
      let r := go_delete r "Id" in
      r ← go_assign r "attributes" (attributes sObjectName);
      rest ← insertLoop sObjectName rest;
      Ret (r :: rest)
  end.

(** [for i := range recordMap] of [doUpdateCollection]; the second
    component is the error of the early [return]. *)
Fixpoint updateLoop (sObjectName : string) (recordMap : list gomap) :
    outcome (list gomap * option error) :=
  match recordMap with
  | [] => Ret ([], None)
  | r :: rest =>
      r ← go_assign r "attributes" (attributes sObjectName);
      let '(recordId, ok) := assert_string (go_index r "Id") in
      if negb ok || (recordId =? "")%string then Ret (r :: rest, Some idNotFound) else
      '(rest, err) ← updateLoop sObjectName rest;
      Ret (r :: rest, err)
  end.

(** [for i := range recordMap] of [doUpsertCollection] *)
Fixpoint upsertLoop (sObjectName fieldName : string) (recordMap : list gomap) :
    outcome (list gomap * option error) :=
  match recordMap with
  | [] => Ret ([], None)
  | r :: rest =>
      r ← go_assign r "attributes" (attributes sObjectName);
      let '(externalIdValue, ok) := assert_string (go_index r fieldName) in
      if negb ok || (externalIdValue =? "")%string
      then Ret (r :: rest, Some (externalIdNotFound fieldName sObjectName)) else
      '(rest, err) ← upsertLoop sObjectName fieldName rest;
      Ret (r :: rest, err)
  end.

(** [for i := 0; i < len(recordMap); i++] of [doDeleteCollection]: [len] is
    [len(recordMap)], [rest] the records from index [i] on. *)
Fixpoint deleteLoop (len i : nat) (rest : list gomap) (ids : string) : string * option error :=
  match rest with
  | [] => (ids, None)
  | r :: rest =>
      let '(recordId, ok) := assert_string (go_index r "Id") in
      if negb ok || (recordId =? "")%string then (ids, Some idNotFound) else
      if (i =? len - 1)%nat
      then deleteLoop len (S i) rest (ids +:+ recordId)
      else deleteLoop len (S i) rest ((ids +:+ recordId) +:+ ",")
  end.

Definition doInsertCollection {RC : RecordCollaborators}
    (auth : Auth) (sObjectName : string) (records : any) (allOrNone : bool) : M (option error) :=
  '(recordMap, err) ← lift (convertToSliceOfMaps records);
  match err with
  | Some err => ret (Some err)
  | None =>
      if (200 <? length recordMap)%nat then ret (Some tooManyRecords) else
      recordMap ← lift (insertLoop sObjectName recordMap);
      let payload := {| AllOrNone := FormatBool allOrNone; Records := recordMap |} in
      '(body, err) ← call_Marshal (box_sObjectCollection payload);
      match err with
      | Some err => ret (Some err)
      | None =>
          '(resp, err) ← call_doRequest "POST" "/composite/sobjects/" jsonType auth body;
          match err with
          | Some err => ret (Some err)
          | None =>
              resp ← lift (deref resp);
              if negb (StatusCode resp =? StatusOK)%Z then ret (processSalesforceError resp) else
              match processSalesforceResponse resp with
              | Some salesforceErrors => ret (Some salesforceErrors)
              | None => ret None
              end
          end
      end
  end.

Definition doUpdateCollection {RC : RecordCollaborators}
    (auth : Auth) (sObjectName : string) (records : any) (allOrNone : bool) : M (option error) :=
  '(recordMap, err) ← lift (convertToSliceOfMaps records);
  match err with
  | Some err => ret (Some err)
  | None =>
      if (200 <? length recordMap)%nat then ret (Some tooManyRecords) else
      '(recordMap, err) ← lift (updateLoop sObjectName recordMap);
      match err with
      | Some err => ret (Some err)
      | None =>
          let payload := {| AllOrNone := FormatBool allOrNone; Records := recordMap |} in
          '(body, err) ← call_Marshal (box_sObjectCollection payload);
          match err with
          | Some err => ret (Some err)
          | None =>
              '(resp, err) ← call_doRequest "PATCH" "/composite/sobjects/" jsonType auth body;
              match err with
              | Some err => ret (Some err)
              | None =>
                  resp ← lift (deref resp);
                  if negb (StatusCode resp =? StatusOK)%Z then ret (processSalesforceError resp) else
                  match processSalesforceResponse resp with
                  | Some salesforceErrors => ret (Some salesforceErrors)
                  | None => ret None
                  end
              end
          end
      end
  end.

Definition doUpsertCollection {RC : RecordCollaborators}
    (auth : Auth) (sObjectName fieldName : string) (records : any) (allOrNone : bool) :
    M (option error) :=
  '(recordMap, err) ← lift (convertToSliceOfMaps records);
  match err with
  | Some err => ret (Some err)
  | None =>
      if (200 <? length recordMap)%nat then ret (Some tooManyRecords) else
      '(recordMap, err) ← lift (upsertLoop sObjectName fieldName recordMap);
      match err with
      | Some err => ret (Some err)
      | None =>
          let payload := {| AllOrNone := FormatBool allOrNone; Records := recordMap |} in
          '(body, err) ← call_Marshal (box_sObjectCollection payload);
          match err with
          | Some err => ret (Some err)
          | None =>
              '(resp, err) ← call_doRequest "PATCH"
                               ("/composite/sobjects/" +:+ sObjectName +:+ "/" +:+ fieldName)
                               jsonType auth body;
              match err with
              | Some err => ret (Some err)
              | None =>
                  resp ← lift (deref resp);
                  if negb (StatusCode resp =? StatusOK)%Z then ret (processSalesforceError resp) else
                  match processSalesforceResponse resp with
                  | Some salesforceErrors => ret (Some salesforceErrors)
                  | None => ret None
                  end
              end
          end
      end
  end.

Definition doDeleteCollection {RC : RecordCollaborators}
    (auth : Auth) (sObjectName : string) (records : any) (allOrNone : bool) : M (option error) :=
  '(recordMap, err) ← lift (convertToSliceOfMaps records);
  match err with
  | Some err => ret (Some err)
  | None =>
      if (200 <? length recordMap)%nat then ret (Some tooManyRecords) else
      let '(ids, err) := deleteLoop (length recordMap) 0 recordMap "" in
      match err with
      | Some err => ret (Some err)
      | None =>
          '(resp, err) ← call_doRequest "DELETE"
                           ("/composite/sobjects/?ids=" +:+ ids +:+ "&allOrNone=" +:+ FormatBool allOrNone)
                           jsonType auth "";
          match err with
          | Some err => ret (Some err)
          | None =>
              resp ← lift (deref resp);
              if negb (StatusCode resp =? StatusOK)%Z then ret (processSalesforceError resp) else
              match processSalesforceResponse resp with
              | Some salesforceErrors => ret (Some salesforceErrors)
              | None => ret None
              end
          end
      end
  end.


(** ** Sessions and grant flows ([auth.go]) *)

Module Creds.
Record Creds : Type := mkCreds {
  Domain : string;
  Username : string;
  Password : string;
  SecurityToken : string;
  ConsumerKey : string;
  ConsumerSecret : string;
  AccessToken : string
}.
End Creds.

Record authentication : Type := mkAuthentication {
  AccessToken : string;
  InstanceUrl : string;
  Id : string;
  TokenType : string;
  Scope : string;
  IssuedAt : string;
  Signature : string;
  grantType : string;
  creds : Creds.Creds
}.

Definition grantTypeUsernamePassword : string := "password".
Definition grantTypeClientCredentials : string := "client_credentials".
Definition grantTypeAccessToken : string := "access_token".

(** What [json.Unmarshal(respBody, &auth)] leaves behind, [auth] being a
    pointer to a zero [authentication]: an error, the pointer set to [nil]
    (the JSON literal [null]), or the exported fields filled in. *)
Inductive unmarshalled : Type :=
| UnmarshalError (jsonError : error)
| UnmarshalNull
| UnmarshalObject (access_token instance_url id token_type scope issued_at signature : string).

(** The standard library as the flows use it: [http.Post] (a function of
    the history), [json.Unmarshal] at type [authentication] and
    [url.Values.Encode]. *)
Class AuthCollaborators : Type := {
  http_Post : list event -> string -> string -> string -> option Response * option error;
  json_Unmarshal : string -> unmarshalled;
  url_Values_Encode : gmap string (list string) -> string
}.

Definition call_Post {AC : AuthCollaborators} (url contentType body : string) :
    M (option Response * option error) :=
  fun h => (Ret (http_Post h url contentType body), [Post url contentType body]).

(** [authentication{}] with the exported fields set; [grantType] and [creds]
    are unexported and keep their zero values. *)
Definition decodedAuthentication
    (access_token instance_url id token_type scope issued_at signature : string) : authentication :=
  {| AccessToken := access_token; InstanceUrl := instance_url; Id := id;
     TokenType := token_type; Scope := scope; IssuedAt := issued_at; Signature := signature;
     grantType := ""; creds := Creds.mkCreds "" "" "" "" "" "" "" |}.

Definition doAuth {AC : AuthCollaborators} (url body : string) :
    M (option authentication * option error) :=
  '(resp, err) ← call_Post url "application/x-www-form-urlencoded" body;
  match err with
  | Some err => ret (None, Some err)
  | None =>
      resp ← lift (deref resp);
      if negb (StatusCode resp =? StatusOK)%Z
      then ret (None, Some (errors_New (Status resp +:+ ":" +:+ " failed authentication"))) else
      let '(respBody, err) := Body resp in
      match err with
      | Some err => ret (None, Some err)
      | None =>
          match json_Unmarshal respBody with
          | UnmarshalError jsonError => ret (None, Some jsonError)
          | UnmarshalNull => ret (None, None)
          | UnmarshalObject a u i t s d g =>
              ret (Some (decodedAuthentication a u i t s d g), None)
          end
      end
  end.

(** [auth.grantType = g] *)
Definition set_grantType (auth : authentication) (g : string) : authentication :=
  {| AccessToken := AccessToken auth; InstanceUrl := InstanceUrl auth; Id := Id auth;
     TokenType := TokenType auth; Scope := Scope auth; IssuedAt := IssuedAt auth;
     Signature := Signature auth; grantType := g; creds := creds auth |}.

Definition usernamePasswordFlow {AC : AuthCollaborators}
    (domain username password securityToken consumerKey consumerSecret : string) :
    M (option authentication * option error) :=
  let payload : gmap string (list string) :=
    <["grant_type" := [grantTypeUsernamePassword]]>
    (<["client_id" := [consumerKey]]>
    (<["client_secret" := [consumerSecret]]>
    (<["username" := [username]]>
    (<["password" := [password +:+ securityToken]]> ∅)))) in
  let endpoint := "/services/oauth2/token" in
  let body := url_Values_Encode payload in
  '(auth, err) ← doAuth (domain +:+ endpoint) body;
  match err with
  | Some err => ret (None, Some err)
  | None =>
      auth ← lift (deref auth);
      ret (Some (set_grantType auth grantTypeUsernamePassword), None)
  end.

Definition clientCredentialsFlow {AC : AuthCollaborators}
    (domain consumerKey consumerSecret : string) : M (option authentication * option error) :=
  let payload : gmap string (list string) :=
    <["grant_type" := [grantTypeClientCredentials]]>
    (<["client_id" := [consumerKey]]>
    (<["client_secret" := [consumerSecret]]> ∅)) in
  let endpoint := "/services/oauth2/token" in
  let body := url_Values_Encode payload in
  '(auth, err) ← doAuth (domain +:+ endpoint) body;
  match err with
  | Some err => ret (None, Some err)
  | None =>
      auth ← lift (deref auth);
      ret (Some (set_grantType auth grantTypeClientCredentials), None)
  end.

Definition invalidSession : error := errors_New "invalid session, unable to refresh session".

(** [refreshSession(auth *authentication) error]: the first component of
    the result is the value [auth] points to when the function returns. *)
Definition refreshSession {AC : AuthCollaborators} (auth : authentication) :
    M (authentication * option error) :=
  let flow :=
    if (grantType auth =? grantTypeClientCredentials)%string then
      Some (clientCredentialsFlow
              (Creds.Domain (creds auth))
              (Creds.ConsumerKey (creds auth))
              (Creds.ConsumerSecret (creds auth)))
    else if (grantType auth =? grantTypeUsernamePassword)%string then
      Some (usernamePasswordFlow
              (Creds.Domain (creds auth))
              (Creds.Username (creds auth))
              (Creds.Password (creds auth))
              (Creds.SecurityToken (creds auth))
              (Creds.ConsumerKey (creds auth))
              (Creds.ConsumerSecret (creds auth)))
    else None in
  match flow with
  | None => ret (auth, Some invalidSession)
  | Some flow =>
      '(refreshedAuth, err) ← flow;
      let auth :=
        match refreshedAuth with
        | Some refreshedAuth =>
            {| AccessToken := AccessToken refreshedAuth;
               InstanceUrl := InstanceUrl auth;
               Id := Id refreshedAuth;
               TokenType := TokenType auth;
               Scope := Scope auth;
               IssuedAt := IssuedAt refreshedAuth;
               Signature := Signature refreshedAuth;
               grantType := grantType auth;
               creds := creds auth |}
        | None => auth
        end in
      ret (auth, err)
  end.

(** ** Session validation ([auth.go]) *)

Module Salesforce.
(** [type Salesforce struct]: the client handle; [auth] is a pointer. *)
Record Salesforce : Type := mk {
  auth : option authentication
}.
End Salesforce.

Module requestPayload.
(** [requestPayload] with the fields the literal in [validateSession] sets;
    whatever else the struct has is at its zero value there. *)
Record requestPayload : Type := mk {
  method : string;
  uri : string;
  content : string
}.
End requestPayload.

Module Probe.
(** [doRequest] as [auth.go] calls it, on a session and a payload, and the
    constant [jsonType].  [validateSession] hands it a pointer to its own
    copy of the session, so nothing it may write there is seen outside. *)
Class SessionCollaborators : Type := {
  doRequest : authentication -> requestPayload.requestPayload -> option Response * option error;
  jsonType : string
}.
End Probe.

Definition notAuthenticated : error :=
  errors_New "not authenticated: please use salesforce.Init()".

Definition validateAuth (sf : Salesforce.Salesforce) : option error :=
  match Salesforce.auth sf with
  | None => Some notAuthenticated
  | Some auth => if (AccessToken auth =? "")%string then Some notAuthenticated else None
  end.

(** [http.MethodGet] *)
Definition MethodGet : string := "GET".

(** The second component lists the calls of [doRequest], in order. *)
Definition validateSession {PC : Probe.SessionCollaborators} (auth : authentication) :
    option error * list (authentication * requestPayload.requestPayload) :=
  match validateAuth {| Salesforce.auth := Some auth |} with
  | Some err => (Some err, [])
  | None =>
      let payload :=
        {| requestPayload.method := MethodGet;
           requestPayload.uri := "/limits";
           requestPayload.content := Probe.jsonType |} in
      let '(_, err) := Probe.doRequest auth payload in
      match err with
      | Some err => (Some err, [(auth, payload)])
      | None => (None, [(auth, payload)])
      end
  end.

Definition setAccessToken {PC : Probe.SessionCollaborators} (domain accessToken : string) :
    (option authentication * option error) * list (authentication * requestPayload.requestPayload) :=
  let auth :=
    {| AccessToken := accessToken; InstanceUrl := domain; Id := ""; TokenType := ""; Scope := "";
       IssuedAt := ""; Signature := ""; grantType := "";
       creds := Creds.mkCreds "" "" "" "" "" "" "" |} in
  match validateSession auth with
  | (Some err, calls) => ((None, Some err), calls)
  | (None, calls) => ((Some (set_grantType auth grantTypeAccessToken), None), calls)
  end.

(** ** Concrete collaborators, for running the operations *)

(** A decoder that takes structs, maps and slices of maps as they are and
    refuses the rest; a serialiser that never fails; a server that answers
    every request with the given status and per-record outcomes. *)
Definition mockDecodeMap (obj : any) : gomap * option error :=
  match obj with
  | VNil => (None, None)
  | VMap m => (m, None)
  | VStruct fields => (Some (list_to_map fields), None)
  | _ => (None, Some (errors_New "expected a map"))
  end.

Definition mockDecodeSlice (obj : any) : list gomap * option error :=
  match obj with
  | VNil => ([], None)
  | VSliceOfMaps l => (l, None)
  | VSlice l => ((fun v => fst (mockDecodeMap v)) <$> l, None)
  | _ => ([], Some (errors_New "source data must be an array or slice"))
  end.

Definition mockResponse (status : Z) : Response :=
  {| Status := ""; StatusCode := status; Body := ("", None) |}.

Definition mockRecords (status : Z) (outcomes : list RecordOutcome) : RecordCollaborators :=
  {| mapstructure_Decode_map := mockDecodeMap;
     mapstructure_Decode_slice := mockDecodeSlice;
     json_Marshal := fun _ => ("<json>", None);
     doRequest := fun _ _ _ _ _ _ => (Some (mockResponse status), None);
     processSalesforceError := fun _ => Some (errors_New "remote error");
     responseOutcomes := fun _ => outcomes;
     jsonType := "application/json" |}.

Definition mockAuth : Auth :=
  {| auth_AccessToken := "token"; auth_InstanceUrl := "https://example.my.salesforce.com";
     auth_Id := ""; auth_IssuedAt := ""; auth_Signature := "" |}.

Definition acme : gmap string any :=
  <["Id" := VString "001"]> (<["Name" := VString "Acme"]> ∅).

Fixpoint insertByKey (kv : string * list string) (l : list (string * list string)) :
    list (string * list string) :=
  match l with
  | [] => [kv]
  | x :: rest => if String.leb (fst kv) (fst x) then kv :: l else x :: insertByKey kv rest
  end.

(** A form encoder for the examples: keys in order, no escaping. *)
Definition mockEncode (v : gmap string (list string)) : string :=
  String.concat "&"
    ((fun kv => fst kv +:+ "=" +:+ String.concat "," (snd kv)) <$>
     foldr insertByKey [] (map_to_list v)).

Definition mockIdentity (answer : option Response * option error) (decoded : unmarshalled) :
    AuthCollaborators :=
  {| http_Post := fun _ _ _ _ => answer;
     json_Unmarshal := fun _ => decoded;
     url_Values_Encode := mockEncode |}.

(** ** Vocabulary of the statements *)

(** The record has no usable identifier: [Id] is absent, not a string, or
    the empty string. *)
Definition missingId (r : gomap) : Prop :=
  match go_index r "Id" with
  | VString s => s = ""
  | _ => True
  end.

(** The record carries the non-empty string [id] in field [k]. *)
Definition hasField (k : string) (r : gomap) (id : string) : Prop :=
  go_index r k = VString id ∧ id ≠ "".

(** The four composite operations, to state a property of all of them. *)
Inductive collectionOp : Type :=
| InsertCollection
| UpdateCollection
| UpsertCollection (fieldName : string)
| DeleteCollection.

Definition doCollection {RC : RecordCollaborators} (op : collectionOp)
    (auth : Auth) (sObjectName : string) (records : any) (allOrNone : bool) : M (option error) :=
  match op with
  | InsertCollection => doInsertCollection auth sObjectName records allOrNone
  | UpdateCollection => doUpdateCollection auth sObjectName records allOrNone
  | UpsertCollection fieldName => doUpsertCollection auth sObjectName fieldName records allOrNone
  | DeleteCollection => doDeleteCollection auth sObjectName records allOrNone
  end.

(** A record that gets through the loop of the operation: an allocated map
    for insert, one with a non-empty string identifier for update and
    delete, one with a non-empty string external id for upsert. *)
Definition acceptable (op : collectionOp) (r : gomap) : Prop :=
  match op with
  | InsertCollection => is_Some r
  | UpdateCollection | DeleteCollection => ∃ id, hasField "Id" r id
  | UpsertCollection fieldName => fieldName ≠ "attributes" ∧ ∃ x, hasField fieldName r x
  end.

(** The record as [doInsertCollection] hands it to the serialiser. *)
Definition insertEncoded (sObjectName : string) (r e : gomap) : Prop :=
  ∃ m, r = Some m ∧ e = Some (<["attributes" := attributes sObjectName]> (delete "Id" m)).

(** The record as [doUpdateCollection] and [doUpsertCollection] hand it to
    the serialiser, [k] being the field the loop checks. *)
Definition checkedEncoded (sObjectName k : string) (r e : gomap) : Prop :=
  ∃ m x, r = Some m ∧ k ≠ "attributes" ∧ m !! k = Some (VString x) ∧ x ≠ "" ∧
         e = Some (<["attributes" := attributes sObjectName]> m).

(** The end every operation shares, written as a function of the answer of
    [doRequest]: the transport error if there is one, else the status test. *)
Definition afterRequest {RC : RecordCollaborators} (expected : Z) (onExpected : Response -> option error)
    (answer : option Response * option error) : outcome (option error) :=
  match answer with
  | (_, Some err) => Ret (Some err)
  | (None, None) => Panic "invalid memory address or nil pointer dereference"
  | (Some resp, None) =>
      if (StatusCode resp =? expected)%Z then Ret (onExpected resp)
      else Ret (processSalesforceError resp)
  end.

(** One request sent after the events [pre] of the same run. *)
Definition exchange {RC : RecordCollaborators} (h pre : list event) (auth : Auth)
    (method uri body : string) (expected : Z) (onExpected : Response -> option error) :
    outcome (option error) * list event :=
  (afterRequest expected onExpected (doRequest (h ++ pre) method uri jsonType auth body),
   pre ++ [Request method uri jsonType auth body]).

(** Serialisation of [v], then one request carrying the result. *)
Definition serialiseAndSend {RC : RecordCollaborators} (h : list event) (auth : Auth) (v : any)
    (method uri : string) (expected : Z) (onExpected : Response -> option error) :
    outcome (option error) * list event :=
  match json_Marshal v with
  | (_, Some err) => (Ret (Some err), [Marshal v])
  | (body, None) => exchange h [Marshal v] auth method uri body expected onExpected
  end.

(** What a composite operation does before its loop: conversion and the
    cap on the number of records; [k] is the rest of the operation. *)
Definition guarded {RC : RecordCollaborators} (records : any)
    (k : list gomap -> outcome (option error) * list event) :
    outcome (option error) * list event :=
  match convertToSliceOfMaps records with
  | Panic msg => (Panic msg, [])
  | Ret (_, Some err) => (Ret (Some err), [])
  | Ret (recordMap, None) =>
      if (200 <? length recordMap)%nat then (Ret (Some tooManyRecords), []) else k recordMap
  end.

(** [e] is [m] without its identifier and with the attributes block. *)
Definition strippedAndTagged (sObjectName : string) (m e : gmap string any) : Prop :=
  e !! "Id" = None ∧ e !! "attributes" = Some (attributes sObjectName) ∧
  ∀ k, k ≠ "Id" → k ≠ "attributes" → e !! k = m !! k.

(** [e] is [m] with the attributes block and nothing removed: the field [k],
    a non-empty string, is still there, as is every other field. *)
Definition taggedOnly (sObjectName k : string) (m e : gmap string any) : Prop :=
  e !! "attributes" = Some (attributes sObjectName) ∧
  (∃ x, e !! k = Some (VString x) ∧ x ≠ "") ∧
  ∀ j, j ≠ "attributes" → e !! j = m !! j.

(** Pointwise relation between the records received and the records sent. *)
Definition sentAs (R : gmap string any -> gmap string any -> Prop) (r e : gomap) : Prop :=
  ∃ m e', r = Some m ∧ e = Some e' ∧ R m e'.

Definition hasFailed (o : RecordOutcome) : Prop :=
  match o with
  | Failed _ _ => True
  | Succeeded _ => False
  end.

(** [doAuth] as a function of the answer of [http.Post]. *)
Definition authResult {AC : AuthCollaborators} (answer : option Response * option error) :
    outcome (option authentication * option error) :=
  match answer with
  | (_, Some err) => Ret (None, Some err)
  | (None, None) => Panic "invalid memory address or nil pointer dereference"
  | (Some resp, None) =>
      if (StatusCode resp =? StatusOK)%Z then
        match Body resp with
        | (_, Some err) => Ret (None, Some err)
        | (respBody, None) =>
            match json_Unmarshal respBody with
            | UnmarshalError jsonError => Ret (None, Some jsonError)
            | UnmarshalNull => Ret (None, None)
            | UnmarshalObject a u i t s d g => Ret (Some (decodedAuthentication a u i t s d g), None)
            end
        end
      else Ret (None, Some (errors_New (Status resp +:+ ":" +:+ " failed authentication")))
  end.

(** What a flow makes of the result of [doAuth]: the error, or the session
    tagged with the grant type [g]. *)
Definition tagged (g : string) (o : outcome (option authentication * option error)) :
    outcome (option authentication * option error) :=
  match o with
  | Panic msg => Panic msg
  | Ret (_, Some err) => Ret (None, Some err)
  | Ret (None, None) => Panic "invalid memory address or nil pointer dereference"
  | Ret (Some auth, None) => Ret (Some (set_grantType auth g), None)
  end.

Definition formType : string := "application/x-www-form-urlencoded".

Definition tokenEndpoint (domain : string) : string := domain +:+ "/services/oauth2/token".

(** The form of the username-password flow. *)
Definition passwordForm (username password securityToken consumerKey consumerSecret : string) :
    gmap string (list string) :=
  <["grant_type" := [grantTypeUsernamePassword]]>
  (<["client_id" := [consumerKey]]>
  (<["client_secret" := [consumerSecret]]>
  (<["username" := [username]]>
  (<["password" := [password +:+ securityToken]]> ∅)))).

(** The form of the client-credentials flow. *)
Definition clientForm (consumerKey consumerSecret : string) : gmap string (list string) :=
  <["grant_type" := [grantTypeClientCredentials]]>
  (<["client_id" := [consumerKey]]>
  (<["client_secret" := [consumerSecret]]> ∅)).

(** The session [auth] after a refresh that obtained [refreshed]. *)
Definition refreshedFrom (auth refreshed : authentication) : authentication :=
  {| AccessToken := AccessToken refreshed;
     InstanceUrl := InstanceUrl auth;
     Id := Id refreshed;
     TokenType := TokenType auth;
     Scope := Scope auth;
     IssuedAt := IssuedAt refreshed;
     Signature := Signature refreshed;
     grantType := grantType auth;
     creds := creds auth |}.

Definition mockCreds : Creds.Creds :=
  {| Creds.Domain := "https://login.salesforce.com";
     Creds.Username := "user@example.com";
     Creds.Password := "secret";
     Creds.SecurityToken := "TOKEN";
     Creds.ConsumerKey := "key";
     Creds.ConsumerSecret := "consumer-secret";
     Creds.AccessToken := "" |}.

Definition mockSession (g : string) : authentication :=
  {| AccessToken := "old-token"; InstanceUrl := "https://na1.salesforce.com";
     Id := "https://login.salesforce.com/id/1"; TokenType := "Bearer"; Scope := "api";
     IssuedAt := "1"; Signature := "old-signature"; grantType := g; creds := mockCreds |}.

(** An identity endpoint that accepts: status 200 and a token response. *)
Definition mockAccepting : AuthCollaborators :=
  mockIdentity (Some {| Status := "200 OK"; StatusCode := 200; Body := ("{...}", None) |}, None)
    (UnmarshalObject "new-token" "https://eu1.salesforce.com" "https://login.salesforce.com/id/2"
       "Bearer" "api" "2" "new-signature").

(** An identity endpoint that refuses. *)
Definition mockRefusing : AuthCollaborators :=
  mockIdentity (Some {| Status := "400 Bad Request"; StatusCode := 400; Body := ("", None) |}, None)
    (UnmarshalError (errors_New "unexpected end of JSON input")).

Definition globex : gmap string any :=
  <["Id" := VString "002"]> (<["Ext__c" := VString "X-2"]> ∅).

Definition requiredFieldMissing : ErrorDescriptor :=
  {| errorCode := "REQUIRED_FIELD_MISSING"; message := "Required fields are missing: [Name]" |}.

(** Three outcomes of which the one at index 1 reports failure. *)
Definition secondFails : list RecordOutcome :=
  [Succeeded (Some "001"); Failed requiredFieldMissing []; Succeeded None].


(** ** Further vocabulary: the single-record operations and whole runs *)

(** The four single-record operations, to state a property of all of them. *)
Inductive singleOp : Type :=
| InsertOne
| UpdateOne
| UpsertOne (fieldName : string)
| DeleteOne.

Definition doSingle {RC : RecordCollaborators} (op : singleOp)
    (auth : Auth) (sObjectName : string) (record : any) : M (option error) :=
  match op with
  | InsertOne => doInsertOne auth sObjectName record
  | UpdateOne => doUpdateOne auth sObjectName record
  | UpsertOne fieldName => doUpsertOne auth sObjectName fieldName record
  | DeleteOne => doDeleteOne auth sObjectName record
  end.

(** The status each single-record operation takes for success. *)
Definition expectedStatus (op : singleOp) : Z :=
  match op with
  | InsertOne => StatusCreated
  | UpdateOne | DeleteOne => StatusNoContent
  | UpsertOne _ => StatusOK
  end.

(** Method and URI of the composite operations that carry a body. *)
Definition compositeMethod (op : collectionOp) : string :=
  match op with
  | InsertCollection => "POST"
  | UpdateCollection | UpsertCollection _ => "PATCH"
  | DeleteCollection => "DELETE"
  end.

Definition compositeUri (op : collectionOp) (sObjectName : string) : string :=
  match op with
  | UpsertCollection fieldName => "/composite/sobjects/" +:+ sObjectName +:+ "/" +:+ fieldName
  | _ => "/composite/sobjects/"
  end.

(** The record as the loop of [op] leaves it for the serialiser. *)
Definition compositeEncoded (op : collectionOp) (sObjectName : string) (r e : gomap) : Prop :=
  match op with
  | InsertCollection => insertEncoded sObjectName r e
  | UpdateCollection => checkedEncoded sObjectName "Id" r e
  | UpsertCollection fieldName => checkedEncoded sObjectName fieldName r e
  | DeleteCollection => False
  end.

(** The field [k] of the record is absent, not a string, or empty. *)
Definition lacksField (k : string) (r : gomap) : Prop :=
  match go_index r k with
  | VString s => s = ""
  | _ => True
  end.

(** How a run of an operation can go: it ends before anything is
    serialised or sent, and then not in success; or it serialises one value
    and, unless that fails, sends it; or it sends one request without body. *)
Inductive reaches {RC : RecordCollaborators} (h : list event) (auth : Auth) (expected : Z) :
    outcome (option error) * list event -> Prop :=
| reaches_local (o : outcome (option error)) :
    o ≠ Ret None -> reaches h auth expected (o, [])
| reaches_serialised (v : any) (method uri : string) (onExpected : Response -> option error) :
    reaches h auth expected (serialiseAndSend h auth v method uri expected onExpected)
| reaches_sent (method uri : string) (onExpected : Response -> option error) :
    reaches h auth expected (exchange h [] auth method uri "" expected onExpected).

(** A serialiser that fails, and a transport that fails. *)
Definition mockUnserialisable : RecordCollaborators :=
  {| mapstructure_Decode_map := mockDecodeMap;
     mapstructure_Decode_slice := mockDecodeSlice;
     json_Marshal := fun _ => ("", Some (errors_New "json: unsupported value"));
     doRequest := fun _ _ _ _ _ _ => (Some (mockResponse 200), None);
     processSalesforceError := fun _ => Some (errors_New "remote error");
     responseOutcomes := fun _ => [];
     jsonType := "application/json" |}.

Definition mockUnreachable : RecordCollaborators :=
  {| mapstructure_Decode_map := mockDecodeMap;
     mapstructure_Decode_slice := mockDecodeSlice;
     json_Marshal := fun _ => ("<json>", None);
     doRequest := fun _ _ _ _ _ _ => (None, Some (errors_New "dial tcp: connection refused"));
     processSalesforceError := fun _ => Some (errors_New "remote error");
     responseOutcomes := fun _ => [];
     jsonType := "application/json" |}.

(** A record without identifier. *)
Definition anonymous : gmap string any := <["Name" := VString "Acme"]> ∅.

(** Probes that are accepted, and probes that are refused. *)
Definition mockProbe (answer : option Response * option error) : Probe.SessionCollaborators :=
  {| Probe.doRequest := fun _ _ => answer; Probe.jsonType := "application/json" |}.

(** An identity endpoint that answers 200 with the JSON literal [null]. *)
Definition mockNull : AuthCollaborators :=
  mockIdentity (Some {| Status := "200 OK"; StatusCode := 200; Body := ("null", None) |}, None)
    UnmarshalNull.

(** What a refresh of [auth] posts: the form of the flow its grant type
    names, built from the stored credentials, or nothing. *)
Definition refreshRequest {AC : AuthCollaborators} (auth : authentication) : list event :=
  if (grantType auth =? grantTypeClientCredentials)%string then
    [Post (tokenEndpoint (Creds.Domain (creds auth))) formType
       (url_Values_Encode
          (clientForm (Creds.ConsumerKey (creds auth)) (Creds.ConsumerSecret (creds auth))))]
  else if (grantType auth =? grantTypeUsernamePassword)%string then
    [Post (tokenEndpoint (Creds.Domain (creds auth))) formType
       (url_Values_Encode
          (passwordForm (Creds.Username (creds auth)) (Creds.Password (creds auth))
             (Creds.SecurityToken (creds auth)) (Creds.ConsumerKey (creds auth))
             (Creds.ConsumerSecret (creds auth))))]
  else [].

(** The session [setAccessToken] builds before it validates it. *)
Definition presetSession (domain accessToken : string) : authentication :=
  {| AccessToken := accessToken; InstanceUrl := domain; Id := ""; TokenType := ""; Scope := "";
     IssuedAt := ""; Signature := ""; grantType := "";
     creds := Creds.mkCreds "" "" "" "" "" "" "" |}.

(** [GET /limits] *)
Definition limitsProbe {PC : Probe.SessionCollaborators} : requestPayload.requestPayload :=
  {| requestPayload.method := "GET"; requestPayload.uri := "/limits";
     requestPayload.content := Probe.jsonType |}.

(** The two flows, each with the body it posts and its grant type. *)
Definition flowsOf {AC : AuthCollaborators} (domain username password securityToken consumerKey consumerSecret : string)
    (h : list event) :
    list ((outcome (option authentication * option error) * list event) * string * string) :=
  [(usernamePasswordFlow domain username password securityToken consumerKey consumerSecret h,
    url_Values_Encode (passwordForm username password securityToken consumerKey consumerSecret),
    grantTypeUsernamePassword);
   (clientCredentialsFlow domain consumerKey consumerSecret h,
    url_Values_Encode (clientForm consumerKey consumerSecret),
    grantTypeClientCredentials)].

(** ** Properties of the record operations *)

Ltac run :=
  unfold mbind, mret, M_bind, M_ret, outcome_bind, outcome_ret, bind, lift, ret,
    call_Marshal, call_doRequest, obind in *; simpl in *.

Lemma append_cons (ch : Ascii.ascii) (a b : string) : String ch a +:+ b = String ch (a +:+ b).
Proof. reflexivity. Qed.

Lemma append_assoc (a b c : string) : (a +:+ b) +:+ c = a +:+ b +:+ c.
Proof. induction a as [|ch a IH]; [done|]. by rewrite !append_cons, IH. Qed.

Lemma append_empty_r (a : string) : a +:+ "" = a.
Proof. induction a as [|ch a IH]; [done|]. by rewrite append_cons, IH. Qed.

Lemma hasField_check (k : string) (r : gomap) (id : string) :
  hasField k r id →
  assert_string (go_index r k) = (id, true) ∧ (id =? "")%string = false.
Proof. intros [-> Hne]. split; [done|]. by apply String.eqb_neq. Qed.

Lemma hasField_allocated (k : string) (r : gomap) (id : string) :
  hasField k r id ↔ ∃ m, r = Some m ∧ m !! k = Some (VString id) ∧ id ≠ "".
Proof.
  unfold hasField. split.
  - intros [Hi Hne]. destruct r as [m|]; [|done]. exists m. repeat split; [|done].
    simpl in Hi. by destruct (m !! k) as [v|]; simpl in Hi; subst.
  - intros (m & -> & Hm & Hne). simpl. by rewrite Hm.
Qed.

Lemma missingId_check (r : gomap) :
  missingId r →
  ∃ s ok, assert_string (go_index r "Id") = (s, ok) ∧ negb ok || (s =? "")%string = true.
Proof.
  unfold missingId. destruct (go_index r "Id"); simpl; intros Hm; eauto.
  subst s. eauto.
Qed.

(** Every record either lacks an identifier or carries one. *)
Lemma missingId_or_hasField (r : gomap) : missingId r ∨ ∃ id, hasField "Id" r id.
Proof.
  unfold missingId, hasField. destruct (go_index r "Id") as [|s| | | | | | |]; auto.
  destruct (decide (s = "")); eauto.
Qed.

Lemma missingId_not_hasField (r : gomap) (id : string) : missingId r → ¬ hasField "Id" r id.
Proof. unfold missingId. intros Hm [Hi Hne]. rewrite Hi in Hm. done. Qed.

(** *** The loops *)

Lemma insertLoop_Ret (sObjectName : string) (recordMap out : list gomap) :
  insertLoop sObjectName recordMap = Ret out ↔ Forall2 (insertEncoded sObjectName) recordMap out.
Proof.
  revert out. induction recordMap as [|r rest IH]; intros out; simpl.
  - split; [intros [= <-]; constructor | by intros ->%Forall2_nil_inv_l].
  - destruct r as [m|]; run.
    + destruct (insertLoop sObjectName rest) as [rest'|msg]; simpl.
      * split.
        -- intros [= <-]. constructor; [by exists m | by apply IH].
        -- intros (e & out' & (m' & [= <-] & ->) & Hrest%IH & ->)%Forall2_cons_inv_l.
           by injection Hrest as ->.
      * split; [done|].
        intros (e & out' & _ & Hrest%IH & _)%Forall2_cons_inv_l. done.
    + split; [done|]. by intros (e & out' & (m' & [=] & _) & _)%Forall2_cons_inv_l.
Qed.

(** The upsert loop returns without error exactly when every record is an
    allocated map with a non-empty string in the checked field. *)
Lemma upsertLoop_Ret (sObjectName fieldName : string) (recordMap out : list gomap) :
  upsertLoop sObjectName fieldName recordMap = Ret (out, None) ↔
  Forall2 (checkedEncoded sObjectName fieldName) recordMap out.
Proof.
  revert out. induction recordMap as [|r rest IH]; intros out; simpl.
  - split; [intros [= <-]; constructor | by intros ->%Forall2_nil_inv_l].
  - destruct r as [m|]; run.
    2:{ split; [done|]. by intros (e & out' & (m' & x & [=] & _) & _)%Forall2_cons_inv_l. }
    destruct (decide (fieldName = "attributes")) as [->|Hk].
    { rewrite lookup_insert_eq. simpl. split; [done|].
      by intros (e & out' & (m' & x & _ & Hne & _) & _)%Forall2_cons_inv_l. }
    rewrite lookup_insert_ne by done.
    destruct (m !! fieldName) as [v|] eqn:Hv; simpl.
    2:{ split; [done|].
        intros (e & out' & (m' & x & [= <-] & _ & Hx & _) & _)%Forall2_cons_inv_l. congruence. }
    destruct v as [|s| | | | | | |]; simpl;
      try (split; [done|];
           intros (e & out' & (m' & x & [= <-] & _ & Hx & _) & _)%Forall2_cons_inv_l; congruence).
    destruct (String.eqb_spec s "") as [->|Hs]; simpl.
    { split; [done|].
      intros (e & out' & (m' & x & [= <-] & _ & Hx & Hne & _) & _)%Forall2_cons_inv_l. congruence. }
    destruct (upsertLoop sObjectName fieldName rest) as [[rest' err]|msg]; simpl.
    + split.
      * intros [= <- ->]. constructor; [by exists m, s | by apply IH].
      * intros (e & out' & (m' & x & [= <-] & _ & _ & _ & ->) & Hrest%IH & ->)%Forall2_cons_inv_l.
        by injection Hrest as -> ->.
    + split; [done|].
      intros (e & out' & _ & Hrest%IH & _)%Forall2_cons_inv_l. done.
Qed.

Lemma updateLoop_upsertLoop (sObjectName : string) (recordMap out : list gomap) :
  updateLoop sObjectName recordMap = Ret (out, None) ↔
  upsertLoop sObjectName "Id" recordMap = Ret (out, None).
Proof.
  revert out. induction recordMap as [|r rest IH]; intros out; simpl; [done|].
  destruct r as [m|]; run; [|done].
  destruct (assert_string (default VNil (<["attributes" := attributes sObjectName]> m !! "Id")))
    as [recordId ok].
  destruct (negb ok || (recordId =? "")%string); [done|].
  destruct (updateLoop sObjectName rest) as [[rest1 err1]|msg1];
    destruct (upsertLoop sObjectName "Id" rest) as [[rest2 err2]|msg2]; simpl.
  - split; intros [= <- ->].
    + by injection (proj1 (IH rest1) eq_refl) as -> ->.
    + by injection (proj2 (IH rest2) eq_refl) as -> ->.
  - split; [intros [= <- ->]|done]. by pose proof (proj1 (IH rest1) eq_refl).
  - split; [done|intros [= <- ->]]. by pose proof (proj2 (IH rest2) eq_refl).
  - done.
Qed.

Lemma updateLoop_Ret (sObjectName : string) (recordMap out : list gomap) :
  updateLoop sObjectName recordMap = Ret (out, None) ↔
  Forall2 (checkedEncoded sObjectName "Id") recordMap out.
Proof. rewrite updateLoop_upsertLoop. apply upsertLoop_Ret. Qed.

(** An early return of the update loop carries the identifier error. *)
Lemma updateLoop_error (sObjectName : string) (recordMap out : list gomap) (err : error) :
  updateLoop sObjectName recordMap = Ret (out, Some err) → err = idNotFound.
Proof.
  revert out. induction recordMap as [|r rest IH]; intros out; simpl; [done|].
  destruct r as [m|]; run; [|done].
  destruct (assert_string _) as [recordId ok].
  destruct (negb ok || (recordId =? "")%string); [by intros [= _ <-]|].
  destruct (updateLoop sObjectName rest) as [[rest' err']|msg]; simpl; [|done].
  intros [= _ ->]. eauto.
Qed.

Lemma upsertLoop_error (sObjectName fieldName : string) (recordMap out : list gomap) (err : error) :
  upsertLoop sObjectName fieldName recordMap = Ret (out, Some err) →
  err = externalIdNotFound fieldName sObjectName.
Proof.
  revert out. induction recordMap as [|r rest IH]; intros out; simpl; [done|].
  destruct r as [m|]; run; [|done].
  destruct (assert_string _) as [externalIdValue ok].
  destruct (negb ok || (externalIdValue =? "")%string); [by intros [= _ <-]|].
  destruct (upsertLoop sObjectName fieldName rest) as [[rest' err']|msg]; simpl; [|done].
  intros [= _ ->]. eauto.
Qed.

(** The delete loop on records that all carry an identifier: the
    identifiers, in order, separated by commas. *)
Lemma deleteLoop_ids (len i : nat) (rest : list gomap) (ids : list string) (acc : string) :
  len = (i + length rest)%nat →
  Forall2 (hasField "Id") rest ids →
  deleteLoop len i rest acc = (acc +:+ String.concat "," ids, None).
Proof.
  intros Hlen Hall. revert i acc Hlen.
  induction Hall as [|r id rest ids Hr Hrest IH]; intros i acc Hlen; simpl.
  - by rewrite append_empty_r.
  - apply hasField_check in Hr as [-> ->]. simpl in *.
    destruct Hrest as [|r' id' rest' ids' Hr' Hrest'].
    + replace (i =? len - 1)%nat with true by (symmetry; apply Nat.eqb_eq; simpl in Hlen; lia).
      done.
    + replace (i =? len - 1)%nat with false by (symmetry; apply Nat.eqb_neq; simpl in Hlen; lia).
      rewrite IH by (simpl in *; lia).
      by rewrite !append_assoc.
Qed.

(** The delete loop stops with the identifier error at the first record
    that lacks one, and only there. *)
Lemma deleteLoop_error (len i : nat) (rest : list gomap) (acc : string) :
  Exists missingId rest ↔ ∃ ids, deleteLoop len i rest acc = (ids, Some idNotFound).
Proof.
  revert i acc. induction rest as [|r rest IH]; intros i acc; simpl.
  - split; [by intros ?%Exists_nil | by intros [ids [=]]].
  - destruct (missingId_or_hasField r) as [Hm|[id Hid]].
    + destruct (missingId_check r Hm) as (s & ok & -> & ->). split; eauto.
    + destruct (hasField_check _ _ _ Hid) as [-> ->]. simpl.
      rewrite Exists_cons.
      destruct (i =? len - 1)%nat; rewrite <- IH; split; auto;
        (intros [Hm|]; [by apply missingId_not_hasField with (id := id) in Hm | done]).
Qed.

Lemma deleteLoop_result (len i : nat) (rest : list gomap) (acc : string) :
  ∀ ids err, deleteLoop len i rest acc = (ids, Some err) → err = idNotFound.
Proof.
  revert i acc. induction rest as [|r rest IH]; intros i acc ids err; simpl; [done|].
  destruct (assert_string _) as [recordId ok].
  destruct (negb ok || (recordId =? "")%string); [by intros [= _ <-]|].
  destruct (i =? len - 1)%nat; eauto.
Qed.

Section RecordOps.
Context `{RC : RecordCollaborators}.

(** *** The operations as functions of their run *)

Ltac crunch :=
  repeat (simpl; rewrite ?app_nil_r; match goal with
  | |- context [json_Marshal ?v] => destruct (json_Marshal v) as [? [?|]]
  | |- context [doRequest ?a ?b ?c ?d ?e ?f] => destruct (doRequest a b c d e f) as [[?|] [?|]]
  | |- context [(StatusCode ?r =? ?x)%Z] => destruct (StatusCode r =? x)%Z
  | |- context [processSalesforceResponse ?r] => destruct (processSalesforceResponse r)
  end); simpl; try done.

Lemma doInsertOne_run auth sObjectName record h :
  doInsertOne auth sObjectName record h =
  match convertToMap record with
  | (_, Some err) => (Ret (Some err), [])
  | (None, None) => (Panic "assignment to entry in nil map", [])
  | (Some m, None) =>
      serialiseAndSend h auth
        (VMap (Some (delete "Id" (<["attributes" := attributes sObjectName]> m))))
        "POST" ("/sobjects/" +:+ sObjectName) StatusCreated (fun _ => None)
  end.
Proof.
  unfold doInsertOne, serialiseAndSend, exchange, afterRequest.
  destruct (convertToMap record) as [[m|] [err|]]; try done.
  run. crunch.
Qed.

Lemma doUpdateOne_run auth sObjectName record h :
  doUpdateOne auth sObjectName record h =
  match convertToMap record with
  | (_, Some err) => (Ret (Some err), [])
  | (recordMap, None) =>
      match recordMap, assert_string (go_index recordMap "Id") with
      | Some m, (recordId, true) =>
          if (recordId =? "")%string then (Ret (Some idNotFound), []) else
          serialiseAndSend h auth
            (VMap (Some (delete "Id" (<["attributes" := attributes sObjectName]> m))))
            "PATCH" ("/sobjects/" +:+ sObjectName +:+ "/" +:+ recordId) StatusNoContent (fun _ => None)
      | _, _ => (Ret (Some idNotFound), [])
      end
  end.
Proof.
  unfold doUpdateOne, serialiseAndSend, exchange, afterRequest.
  destruct (convertToMap record) as [[m|] [err|]]; try done.
  destruct (assert_string (go_index (Some m) "Id")) as [recordId [|]]; [|done].
  simpl. destruct (recordId =? "")%string; [done|].
  run. crunch.
Qed.

Lemma doUpsertOne_run auth sObjectName fieldName record h :
  doUpsertOne auth sObjectName fieldName record h =
  match convertToMap record with
  | (_, Some err) => (Ret (Some err), [])
  | (recordMap, None) =>
      match recordMap, assert_string (go_index recordMap fieldName) with
      | Some m, (externalIdValue, true) =>
          if (externalIdValue =? "")%string
          then (Ret (Some (externalIdNotFound fieldName sObjectName)), []) else
          serialiseAndSend h auth
            (VMap (Some (delete fieldName (delete "Id" (<["attributes" := attributes sObjectName]> m)))))
            "PATCH" ("/sobjects/" +:+ sObjectName +:+ "/" +:+ fieldName +:+ "/" +:+ externalIdValue)
            StatusOK (fun _ => None)
      | _, _ => (Ret (Some (externalIdNotFound fieldName sObjectName)), [])
      end
  end.
Proof.
  unfold doUpsertOne, serialiseAndSend, exchange, afterRequest.
  destruct (convertToMap record) as [[m|] [err|]]; try done.
  destruct (assert_string (go_index (Some m) fieldName)) as [externalIdValue [|]]; [|done].
  simpl. destruct (externalIdValue =? "")%string; [done|].
  run. crunch.
Qed.

Lemma doDeleteOne_run auth sObjectName record h :
  doDeleteOne auth sObjectName record h =
  match convertToMap record with
  | (_, Some err) => (Ret (Some err), [])
  | (recordMap, None) =>
      let '(recordId, ok) := assert_string (go_index recordMap "Id") in
      if negb ok || (recordId =? "")%string then (Ret (Some idNotFound), []) else
      exchange h [] auth "DELETE" ("/sobjects/" +:+ sObjectName +:+ "/" +:+ recordId) ""
        StatusNoContent (fun _ => None)
  end.
Proof.
  unfold doDeleteOne, exchange, afterRequest.
  destruct (convertToMap record) as [recordMap [err|]]; try done.
  destruct (assert_string (go_index recordMap "Id")) as [recordId ok].
  destruct (negb ok || (recordId =? "")%string); [done|].
  run. crunch.
Qed.

Lemma doInsertCollection_run auth sObjectName records allOrNone h :
  doInsertCollection auth sObjectName records allOrNone h =
  guarded records (fun recordMap =>
    match insertLoop sObjectName recordMap with
    | Panic msg => (Panic msg, [])
    | Ret recordMap =>
        serialiseAndSend h auth
          (box_sObjectCollection {| AllOrNone := FormatBool allOrNone; Records := recordMap |})
          "POST" "/composite/sobjects/" StatusOK processSalesforceResponse
    end).
Proof.
  unfold doInsertCollection, guarded, serialiseAndSend, exchange, afterRequest.
  run. destruct (convertToSliceOfMaps records) as [[recordMap [err|]]|msg]; try done.
  simpl. destruct (200 <? length recordMap)%nat; [done|].
  simpl. destruct (insertLoop sObjectName recordMap) as [out|msg]; [|done].
  crunch.
Qed.

Lemma doUpdateCollection_run auth sObjectName records allOrNone h :
  doUpdateCollection auth sObjectName records allOrNone h =
  guarded records (fun recordMap =>
    match updateLoop sObjectName recordMap with
    | Panic msg => (Panic msg, [])
    | Ret (_, Some err) => (Ret (Some err), [])
    | Ret (recordMap, None) =>
        serialiseAndSend h auth
          (box_sObjectCollection {| AllOrNone := FormatBool allOrNone; Records := recordMap |})
          "PATCH" "/composite/sobjects/" StatusOK processSalesforceResponse
    end).
Proof.
  unfold doUpdateCollection, guarded, serialiseAndSend, exchange, afterRequest.
  run. destruct (convertToSliceOfMaps records) as [[recordMap [err|]]|msg]; try done.
  simpl. destruct (200 <? length recordMap)%nat; [done|].
  simpl. destruct (updateLoop sObjectName recordMap) as [[out [err|]]|msg]; try done.
  crunch.
Qed.

Lemma doUpsertCollection_run auth sObjectName fieldName records allOrNone h :
  doUpsertCollection auth sObjectName fieldName records allOrNone h =
  guarded records (fun recordMap =>
    match upsertLoop sObjectName fieldName recordMap with
    | Panic msg => (Panic msg, [])
    | Ret (_, Some err) => (Ret (Some err), [])
    | Ret (recordMap, None) =>
        serialiseAndSend h auth
          (box_sObjectCollection {| AllOrNone := FormatBool allOrNone; Records := recordMap |})
          "PATCH" ("/composite/sobjects/" +:+ sObjectName +:+ "/" +:+ fieldName)
          StatusOK processSalesforceResponse
    end).
Proof.
  unfold doUpsertCollection, guarded, serialiseAndSend, exchange, afterRequest.
  run. destruct (convertToSliceOfMaps records) as [[recordMap [err|]]|msg]; try done.
  simpl. destruct (200 <? length recordMap)%nat; [done|].
  simpl. destruct (upsertLoop sObjectName fieldName recordMap) as [[out [err|]]|msg]; try done.
  crunch.
Qed.

Lemma doDeleteCollection_run auth sObjectName records allOrNone h :
  doDeleteCollection auth sObjectName records allOrNone h =
  guarded records (fun recordMap =>
    match deleteLoop (length recordMap) 0 recordMap "" with
    | (_, Some err) => (Ret (Some err), [])
    | (ids, None) =>
        exchange h [] auth "DELETE"
          ("/composite/sobjects/?ids=" +:+ ids +:+ "&allOrNone=" +:+ FormatBool allOrNone) ""
          StatusOK processSalesforceResponse
    end).
Proof.
  unfold doDeleteCollection, guarded, exchange, afterRequest.
  run. destruct (convertToSliceOfMaps records) as [[recordMap [err|]]|msg]; try done.
  simpl. destruct (200 <? length recordMap)%nat; [done|].
  simpl. destruct (deleteLoop (length recordMap) 0 recordMap "") as [ids [err|]]; [done|].
  crunch.
Qed.

(** C3: on an input whose dynamic type is [map[string]any],
    [convertToSliceOfMaps] does not return: it panics in the type assertion,
    for every such map and whatever the decoder would do. *)
Theorem convertToSliceOfMaps_map_panics (m : gomap) :
  ∃ msg, convertToSliceOfMaps (VMap m) = Panic msg.
Proof. eexists. reflexivity. Qed.

(** *** Records that get through the loops *)

Lemma Forall_exists_Forall2 {A B : Type} (P : A → B → Prop) (l : list A) :
  Forall (fun x => ∃ y, P x y) l → ∃ k, Forall2 P l k.
Proof.
  induction 1 as [|x l [y Hy] _ [k Hk]]; [by exists [] | exists (y :: k); by constructor].
Qed.

Lemma acceptable_insert (sObjectName : string) (recordMap : list gomap) :
  Forall (acceptable InsertCollection) recordMap →
  ∃ out, insertLoop sObjectName recordMap = Ret out.
Proof.
  intros Hall. destruct (Forall_exists_Forall2 (insertEncoded sObjectName) recordMap) as [out Hout].
  - eapply Forall_impl; [done|]. intros r [m ->]. eexists. by exists m.
  - exists out. by apply insertLoop_Ret.
Qed.

Lemma hasField_checkedEncoded (sObjectName k : string) (r : gomap) (x : string) :
  k ≠ "attributes" → hasField k r x → ∃ e, checkedEncoded sObjectName k r e.
Proof.
  intros Hk (m & -> & Hm & Hx)%hasField_allocated. eexists. by exists m, x.
Qed.

Lemma acceptable_update (sObjectName : string) (recordMap : list gomap) :
  Forall (acceptable UpdateCollection) recordMap →
  ∃ out, updateLoop sObjectName recordMap = Ret (out, None).
Proof.
  intros Hall.
  destruct (Forall_exists_Forall2 (checkedEncoded sObjectName "Id") recordMap) as [out Hout].
  - eapply Forall_impl; [done|]. intros r [id Hid]. by eapply hasField_checkedEncoded.
  - exists out. by apply updateLoop_Ret.
Qed.

Lemma acceptable_upsert (sObjectName fieldName : string) (recordMap : list gomap) :
  Forall (acceptable (UpsertCollection fieldName)) recordMap →
  ∃ out, upsertLoop sObjectName fieldName recordMap = Ret (out, None).
Proof.
  intros Hall.
  destruct (Forall_exists_Forall2 (checkedEncoded sObjectName fieldName) recordMap) as [out Hout].
  - eapply Forall_impl; [done|]. intros r [Hk [x Hx]]. by eapply hasField_checkedEncoded.
  - exists out. by apply upsertLoop_Ret.
Qed.

Lemma acceptable_delete (recordMap : list gomap) :
  Forall (acceptable DeleteCollection) recordMap →
  ∃ ids, deleteLoop (length recordMap) 0 recordMap "" = (ids, None).
Proof.
  intros [ids Hids]%(Forall_exists_Forall2 (hasField "Id")).
  eexists. by apply deleteLoop_ids.
Qed.

(** After a successful serialisation the request is on the wire. *)
Lemma serialiseAndSend_request auth v method uri expected onExpected h :
  ∃ out evs, serialiseAndSend h auth v method uri expected onExpected = (out, evs) ∧ evs ≠ [] ∧
    ((∀ v', Marshal v' ∈ evs → (json_Marshal v').2 = None) →
     ∃ body, Request method uri jsonType auth body ∈ evs).
Proof.
  unfold serialiseAndSend, exchange. destruct (json_Marshal v) as [body [err|]] eqn:Hv.
  - do 2 eexists. split; [done|]. split; [done|]. intros Hok.
    specialize (Hok v (list_elem_of_here _ _)). rewrite Hv in Hok. done.
  - do 2 eexists. split; [done|]. split; [done|]. intros _. exists body. set_solver.
Qed.

(** C2: a composite operation whose record list is longer than 200 returns
    the cap error and has neither serialised nor sent anything; with at most
    200 records, so with exactly 200, the run is not that rejection, and if
    the records get through the loop of the operation the payload is
    serialised and, unless serialisation fails, one request is sent. *)
Theorem collection_cap op auth sObjectName records allOrNone recordMap h :
  convertToSliceOfMaps records = Ret (recordMap, None) →
  ((length recordMap > 200)%nat →
     doCollection op auth sObjectName records allOrNone h = (Ret (Some tooManyRecords), [])) ∧
  ((length recordMap ≤ 200)%nat →
     doCollection op auth sObjectName records allOrNone h ≠ (Ret (Some tooManyRecords), []) ∧
     (Forall (acceptable op) recordMap →
      ∃ out evs, doCollection op auth sObjectName records allOrNone h = (out, evs) ∧
        ((∀ v, Marshal v ∈ evs → (json_Marshal v).2 = None) →
         ∃ method uri body, Request method uri jsonType auth body ∈ evs))).
Proof.
  intros Hc. split.
  - intros Hlen.
    assert ((200 <? length recordMap)%nat = true) as Hcap by (apply Nat.ltb_lt; lia).
    destruct op; simpl;
      rewrite ?doInsertCollection_run, ?doUpdateCollection_run, ?doUpsertCollection_run,
        ?doDeleteCollection_run; unfold guarded; by rewrite Hc, Hcap.
  - intros Hlen.
    assert ((200 <? length recordMap)%nat = false) as Hcap by (apply Nat.ltb_ge; lia).
    destruct op as [| |fieldName|]; simpl;
      rewrite ?doInsertCollection_run, ?doUpdateCollection_run, ?doUpsertCollection_run,
        ?doDeleteCollection_run; unfold guarded; rewrite Hc, Hcap.
    + split.
      * destruct (insertLoop sObjectName recordMap) as [out|msg]; [|done].
        destruct (serialiseAndSend_request auth
          (box_sObjectCollection {| AllOrNone := FormatBool allOrNone; Records := out |})
          "POST" "/composite/sobjects/" StatusOK processSalesforceResponse h)
          as (o & evs & -> & Hne & _). congruence.
      * intros [out ->]%(acceptable_insert sObjectName).
        destruct (serialiseAndSend_request auth
          (box_sObjectCollection {| AllOrNone := FormatBool allOrNone; Records := out |})
          "POST" "/composite/sobjects/" StatusOK processSalesforceResponse h)
          as (o & evs & -> & _ & Hsend). exists o, evs. split; [done|]. intros Hok.
        destruct (Hsend Hok) as [body Hbody]. eauto.
    + split.
      * destruct (updateLoop sObjectName recordMap) as [[out [err|]]|msg] eqn:Hloop; [| |done].
        { apply updateLoop_error in Hloop as ->. done. }
        destruct (serialiseAndSend_request auth
          (box_sObjectCollection {| AllOrNone := FormatBool allOrNone; Records := out |})
          "PATCH" "/composite/sobjects/" StatusOK processSalesforceResponse h)
          as (o & evs & -> & Hne & _). congruence.
      * intros [out ->]%(acceptable_update sObjectName).
        destruct (serialiseAndSend_request auth
          (box_sObjectCollection {| AllOrNone := FormatBool allOrNone; Records := out |})
          "PATCH" "/composite/sobjects/" StatusOK processSalesforceResponse h)
          as (o & evs & -> & _ & Hsend). exists o, evs. split; [done|]. intros Hok.
        destruct (Hsend Hok) as [body Hbody]. eauto.
    + split.
      * destruct (upsertLoop sObjectName fieldName recordMap) as [[out [err|]]|msg] eqn:Hloop;
          [| |done].
        { apply upsertLoop_error in Hloop as ->. done. }
        destruct (serialiseAndSend_request auth
          (box_sObjectCollection {| AllOrNone := FormatBool allOrNone; Records := out |})
          "PATCH" ("/composite/sobjects/" +:+ sObjectName +:+ "/" +:+ fieldName)
          StatusOK processSalesforceResponse h)
          as (o & evs & -> & Hne & _). congruence.
      * intros [out ->]%(acceptable_upsert sObjectName).
        destruct (serialiseAndSend_request auth
          (box_sObjectCollection {| AllOrNone := FormatBool allOrNone; Records := out |})
          "PATCH" ("/composite/sobjects/" +:+ sObjectName +:+ "/" +:+ fieldName)
          StatusOK processSalesforceResponse h)
          as (o & evs & -> & _ & Hsend). exists o, evs. split; [done|]. intros Hok.
        destruct (Hsend Hok) as [body Hbody]. eauto.
    + split.
      * destruct (deleteLoop (length recordMap) 0 recordMap "") as [ids [err|]] eqn:Hloop.
        { apply deleteLoop_result in Hloop as ->. done. }
        unfold exchange. simpl. congruence.
      * intros [ids ->]%acceptable_delete. unfold exchange. simpl.
        do 2 eexists. split; [done|]. intros _. do 3 eexists. apply list_elem_of_here.
Qed.

(** *** Missing identifiers *)

Lemma doUpdateOne_missingId auth sObjectName record recordMap h :
  convertToMap record = (recordMap, None) → missingId recordMap →
  doUpdateOne auth sObjectName record h = (Ret (Some idNotFound), []).
Proof.
  intros Hc (s & ok & Ha & Hb)%missingId_check.
  unfold doUpdateOne. rewrite Hc, Ha, Hb. reflexivity.
Qed.

Lemma doDeleteOne_missingId auth sObjectName record recordMap h :
  convertToMap record = (recordMap, None) → missingId recordMap →
  doDeleteOne auth sObjectName record h = (Ret (Some idNotFound), []).
Proof.
  intros Hc (s & ok & Ha & Hb)%missingId_check.
  unfold doDeleteOne. rewrite Hc, Ha, Hb. reflexivity.
Qed.

Lemma doDeleteCollection_missingId auth sObjectName records allOrNone recordMap h :
  convertToSliceOfMaps records = Ret (recordMap, None) → Exists missingId recordMap →
  doDeleteCollection auth sObjectName records allOrNone h =
    (Ret (Some (if (200 <? length recordMap)%nat then tooManyRecords else idNotFound)), []).
Proof.
  intros Hc Hm. rewrite doDeleteCollection_run. unfold guarded. rewrite Hc.
  destruct (200 <? length recordMap)%nat; [done|].
  apply (deleteLoop_error (length recordMap) 0 recordMap "") in Hm as [ids ->]. done.
Qed.

(** On allocated maps the update loop returns, and with the identifier
    error as soon as one record lacks its identifier. *)
Lemma updateLoop_missingId (sObjectName : string) (recordMap : list gomap) :
  Forall is_Some recordMap → Exists missingId recordMap →
  ∃ out, updateLoop sObjectName recordMap = Ret (out, Some idNotFound).
Proof.
  intros Hall. induction Hall as [|r rest [m ->] _ IH]; intros Hm; [by apply Exists_nil in Hm|].
  simpl. run. rewrite lookup_insert_ne by done.
  destruct (missingId_or_hasField (Some m)) as [Hr|[id Hid]].
  - destruct (missingId_check _ Hr) as (s & ok & Ha & Hb). simpl in Ha. rewrite Ha, Hb. eauto.
  - destruct (hasField_check _ _ _ Hid) as [Ha Hb]. simpl in Ha. rewrite Ha, Hb. simpl.
    apply Exists_cons in Hm as [Hm|Hm]; [by apply missingId_not_hasField with (id := id) in Hm|].
    destruct (IH Hm) as [out ->]. simpl. eauto.
Qed.

Lemma doUpdateCollection_missingId auth sObjectName records allOrNone recordMap h :
  convertToSliceOfMaps records = Ret (recordMap, None) →
  Forall is_Some recordMap → Exists missingId recordMap →
  doUpdateCollection auth sObjectName records allOrNone h =
    (Ret (Some (if (200 <? length recordMap)%nat then tooManyRecords else idNotFound)), []).
Proof.
  intros Hc Hall Hm. rewrite doUpdateCollection_run. unfold guarded. rewrite Hc.
  destruct (200 <? length recordMap)%nat; [done|].
  by destruct (updateLoop_missingId sObjectName recordMap Hall Hm) as [out ->].
Qed.

(** C6: a nil map is a record without identifier; collection update, which
    writes the attributes block before it looks at the identifier, panics on
    it where the other three operations return the identifier error. *)
Theorem doUpdateCollection_nil_record auth sObjectName records allOrNone rest h :
  convertToSliceOfMaps records = Ret (None :: rest, None) →
  (length (None :: rest) ≤ 200)%nat →
  missingId None ∧
  doUpdateCollection auth sObjectName records allOrNone h =
    (Panic "assignment to entry in nil map", []).
Proof.
  intros Hc Hlen. split; [done|].
  rewrite doUpdateCollection_run. unfold guarded. rewrite Hc.
  replace (200 <? length (None :: rest))%nat with false by (symmetry; apply Nat.ltb_ge; lia).
  done.
Qed.

(** *** The request of collection delete *)

(** C7: for at most 200 records that each carry a non-empty string
    identifier, collection delete sends exactly one request, with an empty
    body, whose URI lists the identifiers in input order separated by commas,
    followed by the all-or-none flag. *)
Theorem doDeleteCollection_request auth sObjectName records allOrNone recordMap ids h :
  convertToSliceOfMaps records = Ret (recordMap, None) →
  Forall2 (hasField "Id") recordMap ids →
  (length recordMap ≤ 200)%nat →
  ∃ out, doDeleteCollection auth sObjectName records allOrNone h =
    (out, [Request "DELETE"
             ("/composite/sobjects/?ids=" +:+ String.concat "," ids +:+
              "&allOrNone=" +:+ FormatBool allOrNone)
             jsonType auth ""]).
Proof.
  intros Hc Hids Hlen. rewrite doDeleteCollection_run. unfold guarded. rewrite Hc.
  replace (200 <? length recordMap)%nat with false by (symmetry; apply Nat.ltb_ge; lia).
  rewrite (deleteLoop_ids (length recordMap) 0 recordMap ids "") by done.
  unfold exchange. simpl. eauto.
Qed.

(** *** What is serialised *)

Lemma serialiseAndSend_Marshal auth v0 method uri expected onExpected h v :
  Marshal v ∈ (serialiseAndSend h auth v0 method uri expected onExpected).2 → v = v0.
Proof.
  unfold serialiseAndSend, exchange. destruct (json_Marshal v0) as [body [err|]]; simpl.
  - by intros [= ->]%list_elem_of_singleton.
  - rewrite !elem_of_cons. intros [[= ->]|[[=]|[]%elem_of_nil]]. done.
Qed.

Lemma serialiseAndSend_body auth v0 method0 uri0 expected onExpected h method uri content a body :
  Request method uri content a body ∈ (serialiseAndSend h auth v0 method0 uri0 expected onExpected).2 →
  Marshal v0 ∈ (serialiseAndSend h auth v0 method0 uri0 expected onExpected).2 ∧
  body = (json_Marshal v0).1.
Proof.
  unfold serialiseAndSend, exchange. destruct (json_Marshal v0) as [body0 [err|]]; simpl.
  - by intros [=]%list_elem_of_singleton.
  - rewrite !elem_of_cons. intros [[=]|[[= -> -> -> -> ->]|[]%elem_of_nil]].
    split; [by left | done].
Qed.

Lemma strippedAndTagged_intro (sObjectName : string) (m : gmap string any) :
  strippedAndTagged sObjectName m (delete "Id" (<["attributes" := attributes sObjectName]> m)).
Proof.
  repeat split.
  - apply lookup_delete_eq.
  - rewrite lookup_delete_ne by done. apply lookup_insert_eq.
  - intros k Hid Hattr. rewrite lookup_delete_ne by done. by rewrite lookup_insert_ne.
Qed.

Lemma insertEncoded_sentAs (sObjectName : string) (r e : gomap) :
  insertEncoded sObjectName r e → sentAs (strippedAndTagged sObjectName) r e.
Proof.
  intros (m & -> & ->). exists m. eexists. repeat split.
  - by rewrite lookup_insert_ne, lookup_delete_eq.
  - apply lookup_insert_eq.
  - intros k Hid Hattr. rewrite lookup_insert_ne by done. by rewrite lookup_delete_ne.
Qed.

Lemma checkedEncoded_sentAs (sObjectName k : string) (r e : gomap) :
  checkedEncoded sObjectName k r e → sentAs (taggedOnly sObjectName k) r e.
Proof.
  intros (m & x & -> & Hk & Hm & Hx & ->). exists m. eexists. repeat split.
  - apply lookup_insert_eq.
  - exists x. by rewrite lookup_insert_ne.
  - intros j Hj. by rewrite lookup_insert_ne.
Qed.

(** C1, as the code has it: what single-record insert, update and upsert
    and collection insert serialise is the record without ["Id"] and with the
    attributes block [{"type": sObjectName}]; single-record upsert also
    removes the external-id field (the attributes block is stated for an
    external-id field not itself called ["attributes"]).  Collection update
    and collection upsert serialise every record with the attributes block
    added and nothing removed: ["Id"], respectively the external-id field,
    is still in the body.  In all six, the body of the request is the
    serialisation of that value. *)
Theorem write_encoding auth sObjectName fieldName record records allOrNone h v :
  (Marshal v ∈ (doInsertOne auth sObjectName record h).2 →
     ∃ m e, convertToMap record = (Some m, None) ∧ v = VMap (Some e) ∧
            strippedAndTagged sObjectName m e) ∧
  (Marshal v ∈ (doUpdateOne auth sObjectName record h).2 →
     ∃ m e, convertToMap record = (Some m, None) ∧ v = VMap (Some e) ∧
            strippedAndTagged sObjectName m e) ∧
  (Marshal v ∈ (doUpsertOne auth sObjectName fieldName record h).2 →
     ∃ m e, convertToMap record = (Some m, None) ∧ v = VMap (Some e) ∧
            e !! "Id" = None ∧ e !! fieldName = None ∧
            (fieldName ≠ "attributes" → e !! "attributes" = Some (attributes sObjectName)) ∧
            (∀ k, k ≠ "Id" → k ≠ fieldName → k ≠ "attributes" → e !! k = m !! k)) ∧
  (Marshal v ∈ (doInsertCollection auth sObjectName records allOrNone h).2 →
     ∃ recordMap out, convertToSliceOfMaps records = Ret (recordMap, None) ∧
       v = box_sObjectCollection {| AllOrNone := FormatBool allOrNone; Records := out |} ∧
       Forall2 (sentAs (strippedAndTagged sObjectName)) recordMap out) ∧
  (Marshal v ∈ (doUpdateCollection auth sObjectName records allOrNone h).2 →
     ∃ recordMap out, convertToSliceOfMaps records = Ret (recordMap, None) ∧
       v = box_sObjectCollection {| AllOrNone := FormatBool allOrNone; Records := out |} ∧
       Forall2 (sentAs (taggedOnly sObjectName "Id")) recordMap out) ∧
  (Marshal v ∈ (doUpsertCollection auth sObjectName fieldName records allOrNone h).2 →
     ∃ recordMap out, convertToSliceOfMaps records = Ret (recordMap, None) ∧
       v = box_sObjectCollection {| AllOrNone := FormatBool allOrNone; Records := out |} ∧
       Forall2 (sentAs (taggedOnly sObjectName fieldName)) recordMap out) ∧
  Forall (fun run : outcome (option error) * list event =>
            ∀ method uri content a body, Request method uri content a body ∈ run.2 →
              ∃ sent, Marshal sent ∈ run.2 ∧ body = (json_Marshal sent).1)
    [doInsertOne auth sObjectName record h;
     doUpdateOne auth sObjectName record h;
     doUpsertOne auth sObjectName fieldName record h;
     doInsertCollection auth sObjectName records allOrNone h;
     doUpdateCollection auth sObjectName records allOrNone h;
     doUpsertCollection auth sObjectName fieldName records allOrNone h].
Proof.
  repeat apply conj; [| | | | | |
    rewrite doInsertOne_run, doUpdateOne_run, doUpsertOne_run, doInsertCollection_run,
      doUpdateCollection_run, doUpsertCollection_run; unfold guarded;
    repeat (apply List.Forall_cons); try apply List.Forall_nil;
    intros method uri content a body;
    repeat match goal with
    | |- context [match ?x with _ => _ end] =>
        lazymatch x with
        | json_Marshal _ => fail
        | _ => destruct x; simpl; try (by intros ?%elem_of_nil)
        end
    | |- context [if ?x then _ else _] => destruct x; simpl; try (by intros ?%elem_of_nil)
    end;
    intros Hreq; eexists; by apply serialiseAndSend_body in Hreq].
  - rewrite doInsertOne_run.
    destruct (convertToMap record) as [[m|] [err|]]; simpl; try by intros ?%elem_of_nil.
    intros ->%serialiseAndSend_Marshal. do 2 eexists. split; [done|]. split; [done|].
    apply strippedAndTagged_intro.
  - rewrite doUpdateOne_run.
    destruct (convertToMap record) as [[m|] [err|]]; simpl; try by intros ?%elem_of_nil.
    destruct (assert_string _) as [recordId [|]]; try by intros ?%elem_of_nil.
    destruct (recordId =? "")%string; try by intros ?%elem_of_nil.
    intros ->%serialiseAndSend_Marshal. do 2 eexists. split; [done|]. split; [done|].
    apply strippedAndTagged_intro.
  - rewrite doUpsertOne_run.
    destruct (convertToMap record) as [[m|] [err|]]; simpl; try by intros ?%elem_of_nil.
    destruct (assert_string _) as [externalIdValue [|]]; try by intros ?%elem_of_nil.
    destruct (externalIdValue =? "")%string; try by intros ?%elem_of_nil.
    intros ->%serialiseAndSend_Marshal. do 2 eexists. repeat split.
    + destruct (decide (fieldName = "Id")) as [->|Hne]; [apply lookup_delete_eq|].
      rewrite lookup_delete_ne by done. apply lookup_delete_eq.
    + apply lookup_delete_eq.
    + intros Hne. rewrite !lookup_delete_ne by done. apply lookup_insert_eq.
    + intros k Hid Hfield Hattr. rewrite !lookup_delete_ne by done. by rewrite lookup_insert_ne.
  - rewrite doInsertCollection_run. unfold guarded.
    destruct (convertToSliceOfMaps records) as [[recordMap [err|]]|msg]; simpl;
      try by intros ?%elem_of_nil.
    destruct (200 <? length recordMap)%nat; try by intros ?%elem_of_nil.
    destruct (insertLoop sObjectName recordMap) as [out|msg] eqn:Hloop; simpl;
      try by intros ?%elem_of_nil.
    intros ->%serialiseAndSend_Marshal. exists recordMap, out. split; [done|]. split; [done|].
    apply insertLoop_Ret in Hloop. eapply Forall2_impl; [done|]. apply insertEncoded_sentAs.
  - rewrite doUpdateCollection_run. unfold guarded.
    destruct (convertToSliceOfMaps records) as [[recordMap [err|]]|msg]; simpl;
      try by intros ?%elem_of_nil.
    destruct (200 <? length recordMap)%nat; try by intros ?%elem_of_nil.
    destruct (updateLoop sObjectName recordMap) as [[out [err|]]|msg] eqn:Hloop; simpl;
      try by intros ?%elem_of_nil.
    intros ->%serialiseAndSend_Marshal. exists recordMap, out. split; [done|]. split; [done|].
    apply updateLoop_Ret in Hloop. eapply Forall2_impl; [done|]. apply checkedEncoded_sentAs.
  - rewrite doUpsertCollection_run. unfold guarded.
    destruct (convertToSliceOfMaps records) as [[recordMap [err|]]|msg]; simpl;
      try by intros ?%elem_of_nil.
    destruct (200 <? length recordMap)%nat; try by intros ?%elem_of_nil.
    destruct (upsertLoop sObjectName fieldName recordMap) as [[out [err|]]|msg] eqn:Hloop; simpl;
      try by intros ?%elem_of_nil.
    intros ->%serialiseAndSend_Marshal. exists recordMap, out. split; [done|]. split; [done|].
    apply upsertLoop_Ret in Hloop. eapply Forall2_impl; [done|]. apply checkedEncoded_sentAs.
Qed.

(** *** The answer of a composite request *)

Lemma collectFailures_elem (k : nat) (results : list RecordOutcome)
    (i : nat) (ds : list ErrorDescriptor) :
  mkFailedRecord i ds ∈ collectFailures k results ↔
  ∃ j e es, i = (k + j)%nat ∧ results !! j = Some (Failed e es) ∧ ds = e :: es.
Proof.
  revert k. induction results as [|o rest IH]; intros k; simpl.
  - split; [by intros ?%elem_of_nil | by intros (j & e & es & _ & ? & _)].
  - destruct o as [id|e es].
    + rewrite IH. split.
      * intros (j & e & es & -> & Hj & ->). exists (S j), e, es. split; [lia|done].
      * intros ([|j] & e & es & -> & Hj & ->); [done|]. exists j, e, es. split; [lia|done].
    + rewrite elem_of_cons, IH. split.
      * intros [[= -> ->]|(j & e' & es' & -> & Hj & ->)].
        -- exists 0%nat, e, es. split; [lia|done].
        -- exists (S j), e', es'. split; [lia|done].
      * intros ([|j] & e' & es' & -> & Hj & ->).
        -- left. injection Hj as <- <-. f_equal. lia.
        -- right. exists j, e', es'. split; [lia|done].
Qed.

Lemma collectFailures_sorted (k : nat) (results : list RecordOutcome) :
  StronglySorted lt (index <$> collectFailures k results).
Proof.
  revert k. induction results as [|o rest IH]; intros k; simpl; [constructor|].
  destruct o as [id|e es]; [apply IH|].
  simpl. constructor; [apply IH|].
  apply Forall_forall. intros i Hi.
  apply list_elem_of_fmap in Hi as (f & -> & Hf).
  destruct f as [i ds]. apply collectFailures_elem in Hf as (j & _ & _ & -> & _). simpl. lia.
Qed.

Lemma collectFailures_none (k : nat) (results : list RecordOutcome) :
  collectFailures k results = [] ↔ Forall (fun o => ¬ hasFailed o) results.
Proof.
  revert k. induction results as [|o rest IH]; intros k; simpl.
  - split; [constructor | done].
  - destruct o as [id|e es]; rewrite Forall_cons; simpl.
    + rewrite IH. tauto.
    + split; [done | tauto].
Qed.

(** What the modelled [processSalesforceResponse] returns. *)
Lemma processSalesforceResponse_spec (resp : Response) :
  (Forall (fun o => ¬ hasFailed o) (responseOutcomes resp) →
     processSalesforceResponse resp = None) ∧
  (Exists hasFailed (responseOutcomes resp) →
     ∃ failures, processSalesforceResponse resp = Some (RemoteErrors failures) ∧
       (∀ i ds, mkFailedRecord i ds ∈ failures ↔
                ∃ e es, responseOutcomes resp !! i = Some (Failed e es) ∧ ds = e :: es) ∧
       StronglySorted lt (index <$> failures)).
Proof.
  unfold processSalesforceResponse. split.
  - intros Hall%(collectFailures_none 0). by rewrite Hall.
  - intros Hex. exists (collectFailures 0 (responseOutcomes resp)). split; [|split].
    + destruct (collectFailures 0 (responseOutcomes resp)) eqn:Hc; [|done].
      apply collectFailures_none in Hc. apply Exists_exists in Hex as (o & Ho & Hf).
      rewrite Forall_forall in Hc. by destruct (Hc o Ho).
    + intros i ds. rewrite collectFailures_elem. split.
      * intros (j & e & es & -> & Hj & ->). by exists e, es.
      * intros (e & es & Hi & ->). by exists i, e, es.
    + apply collectFailures_sorted.
Qed.

Lemma exchange_answer h pre' auth method' uri' body' expected onExpected out pre method uri body resp :
  exchange h pre' auth method' uri' body' expected onExpected =
    (out, pre ++ [Request method uri jsonType auth body]) →
  doRequest (h ++ pre) method uri jsonType auth body = (Some resp, None) →
  StatusCode resp = expected →
  out = Ret (onExpected resp).
Proof.
  unfold exchange. intros [= <- [-> [= -> -> ->]]%app_inj_tail] Hreq Hstatus.
  rewrite Hreq. simpl. by rewrite Hstatus, Z.eqb_refl.
Qed.

Lemma serialiseAndSend_answer h auth v method' uri' expected onExpected out pre method uri body resp :
  serialiseAndSend h auth v method' uri' expected onExpected =
    (out, pre ++ [Request method uri jsonType auth body]) →
  doRequest (h ++ pre) method uri jsonType auth body = (Some resp, None) →
  StatusCode resp = expected →
  out = Ret (onExpected resp).
Proof.
  unfold serialiseAndSend. destruct (json_Marshal v) as [body' [err|]].
  - intros [= _ Hevs]. by apply (app_inj_tail []) in Hevs as [_ [=]].
  - apply exchange_answer.
Qed.

Lemma local_answer (o : outcome (option error)) out pre ev :
  (o, @nil event) = (out, pre ++ [ev]) → False.
Proof. intros [= _ Hevs]. by destruct pre. Qed.

(** C8: when the request of a composite operation is answered with status
    OK, the operation returns no error if no record of the response reports
    failure, and otherwise an aggregated error that lists, in order of index,
    exactly the failing records, each with its index and all its error
    descriptors (code and message). *)
Theorem composite_response op auth sObjectName records allOrNone h out pre method uri body resp :
  doCollection op auth sObjectName records allOrNone h =
    (out, pre ++ [Request method uri jsonType auth body]) →
  doRequest (h ++ pre) method uri jsonType auth body = (Some resp, None) →
  StatusCode resp = StatusOK →
  (Forall (fun o => ¬ hasFailed o) (responseOutcomes resp) → out = Ret None) ∧
  (Exists hasFailed (responseOutcomes resp) →
     ∃ failures, out = Ret (Some (RemoteErrors failures)) ∧
       (∀ i ds, mkFailedRecord i ds ∈ failures ↔
                ∃ e es, responseOutcomes resp !! i = Some (Failed e es) ∧ ds = e :: es) ∧
       StronglySorted lt (index <$> failures)).
Proof.
  intros Hrun Hreq Hstatus.
  assert (out = Ret (processSalesforceResponse resp)) as ->.
  { destruct op as [| |fieldName|]; simpl in Hrun;
      rewrite ?doInsertCollection_run, ?doUpdateCollection_run, ?doUpsertCollection_run,
        ?doDeleteCollection_run in Hrun; unfold guarded in Hrun;
      destruct (convertToSliceOfMaps records) as [[recordMap [err|]]|msg];
      try (by apply local_answer in Hrun);
      destruct (200 <? length recordMap)%nat; try (by apply local_answer in Hrun).
    - destruct (insertLoop sObjectName recordMap) as [sent|msg];
        [|by apply local_answer in Hrun].
      by eapply serialiseAndSend_answer.
    - destruct (updateLoop sObjectName recordMap) as [[sent [err|]]|msg];
        try (by apply local_answer in Hrun).
      by eapply serialiseAndSend_answer.
    - destruct (upsertLoop sObjectName fieldName recordMap) as [[sent [err|]]|msg];
        try (by apply local_answer in Hrun).
      by eapply serialiseAndSend_answer.
    - destruct (deleteLoop (length recordMap) 0 recordMap "") as [ids [err|]];
        [by apply local_answer in Hrun|].
      by eapply exchange_answer. }
  destruct (processSalesforceResponse_spec resp) as [Hnone Hsome]. split.
  - intros Hall. by rewrite Hnone.
  - intros Hex. destruct (Hsome Hex) as (failures & -> & Hfail). eauto.
Qed.

End RecordOps.

(** ** Properties of the session functions *)

Section Session.
Context `{AC : AuthCollaborators}.

Lemma doAuth_run url body h :
  doAuth url body h = (authResult (http_Post h url formType body), [Post url formType body]).
Proof.
  unfold doAuth, authResult, formType. run.
  destruct (http_Post h url "application/x-www-form-urlencoded" body) as [[resp|] [err|]];
    simpl; try done.
  destruct (StatusCode resp =? StatusOK)%Z; simpl; [|done].
  destruct (Body resp) as [respBody [err|]]; simpl; [done|].
  by destruct (json_Unmarshal respBody).
Qed.

Lemma usernamePasswordFlow_run domain username password securityToken consumerKey consumerSecret h :
  usernamePasswordFlow domain username password securityToken consumerKey consumerSecret h =
  let body := url_Values_Encode
                (passwordForm username password securityToken consumerKey consumerSecret) in
  (tagged grantTypeUsernamePassword (authResult (http_Post h (tokenEndpoint domain) formType body)),
   [Post (tokenEndpoint domain) formType body]).
Proof.
  unfold usernamePasswordFlow. unfold mbind, M_bind, bind. rewrite doAuth_run.
  fold (passwordForm username password securityToken consumerKey consumerSecret).
  fold (tokenEndpoint domain). simpl.
  destruct (authResult _) as [[[auth|] [err|]]|msg]; done.
Qed.

Lemma clientCredentialsFlow_run domain consumerKey consumerSecret h :
  clientCredentialsFlow domain consumerKey consumerSecret h =
  let body := url_Values_Encode (clientForm consumerKey consumerSecret) in
  (tagged grantTypeClientCredentials (authResult (http_Post h (tokenEndpoint domain) formType body)),
   [Post (tokenEndpoint domain) formType body]).
Proof.
  unfold clientCredentialsFlow. unfold mbind, M_bind, bind. rewrite doAuth_run.
  fold (clientForm consumerKey consumerSecret). fold (tokenEndpoint domain). simpl.
  destruct (authResult _) as [[[auth|] [err|]]|msg]; done.
Qed.

(** A flow that returns has either an error and no session, or a session
    read from an accepted token response and no error. *)
Lemma flow_result g answer r :
  tagged g (authResult answer) = Ret r →
  (∃ err, r = (None, Some err)) ∨
  (∃ resp respBody a u i t s d sg,
     answer = (Some resp, None) ∧ StatusCode resp = StatusOK ∧ Body resp = (respBody, None) ∧
     json_Unmarshal respBody = UnmarshalObject a u i t s d sg ∧
     r = (Some (set_grantType (decodedAuthentication a u i t s d sg) g), None)).
Proof.
  unfold authResult. destruct answer as [[resp|] [err|]]; simpl;
    try (intros [= <-]; left; by eexists); try done.
  destruct (StatusCode resp =? StatusOK)%Z eqn:Hstatus; simpl;
    [|intros [= <-]; left; by eexists].
  apply Z.eqb_eq in Hstatus.
  destruct (Body resp) as [respBody [err|]] eqn:Hbody; simpl; [intros [= <-]; left; by eexists|].
  destruct (json_Unmarshal respBody) as [jsonError| |a u i t s d sg] eqn:Hjson; simpl;
    [intros [= <-]; left; by eexists|done|].
  intros [= <-]. right. by exists resp, respBody, a, u, i, t, s, d, sg.
Qed.

(** What [refreshSession] makes of the run of the selected flow. *)
Lemma refreshSession_run auth h :
  refreshSession auth h =
  let finish (run : outcome (option authentication * option error) * list event) :=
    match run with
    | (Ret (Some refreshed, err), evs) => (Ret (refreshedFrom auth refreshed, err), evs)
    | (Ret (None, err), evs) => (Ret (auth, err), evs)
    | (Panic msg, evs) => (Panic msg, evs)
    end in
  if (grantType auth =? grantTypeClientCredentials)%string then
    finish (clientCredentialsFlow (Creds.Domain (creds auth)) (Creds.ConsumerKey (creds auth))
              (Creds.ConsumerSecret (creds auth)) h)
  else if (grantType auth =? grantTypeUsernamePassword)%string then
    finish (usernamePasswordFlow (Creds.Domain (creds auth)) (Creds.Username (creds auth))
              (Creds.Password (creds auth)) (Creds.SecurityToken (creds auth))
              (Creds.ConsumerKey (creds auth)) (Creds.ConsumerSecret (creds auth)) h)
  else (Ret (auth, Some invalidSession), []).
Proof.
  unfold refreshSession.
  destruct (grantType auth =? grantTypeClientCredentials)%string.
  - unfold mbind, M_bind, bind. destruct (clientCredentialsFlow _ _ _ h) as [[[[r|] err]|msg] evs];
      simpl; by rewrite ?app_nil_r.
  - destruct (grantType auth =? grantTypeUsernamePassword)%string; [|done].
    unfold mbind, M_bind, bind.
    destruct (usernamePasswordFlow _ _ _ _ _ _ h) as [[[[r|] err]|msg] evs];
      simpl; by rewrite ?app_nil_r.
Qed.

(** Every return of [refreshSession] is the return of a flow, or the
    immediate refusal. *)
Lemma refreshSession_cases auth h auth' err evs :
  refreshSession auth h = (Ret (auth', err), evs) →
  (auth' = auth ∧ err = Some invalidSession ∧ evs = [] ∧
   grantType auth ≠ grantTypeClientCredentials ∧ grantType auth ≠ grantTypeUsernamePassword) ∨
  (∃ g url body r, evs = [Post url formType body] ∧
     tagged g (authResult (http_Post h url formType body)) = Ret (r, err) ∧
     auth' = match r with Some refreshed => refreshedFrom auth refreshed | None => auth end).
Proof.
  rewrite refreshSession_run. simpl.
  destruct (String.eqb_spec (grantType auth) grantTypeClientCredentials) as [Hc|Hc].
  - rewrite clientCredentialsFlow_run. simpl.
    destruct (tagged _ _) as [[[r|] err']|msg] eqn:Hflow; [| |done];
      intros [= <- <- <-]; right; do 4 eexists; (split; [done|]); by rewrite Hflow.
  - destruct (String.eqb_spec (grantType auth) grantTypeUsernamePassword) as [Hp|Hp].
    + rewrite usernamePasswordFlow_run. simpl.
      destruct (tagged _ _) as [[[r|] err']|msg] eqn:Hflow; [| |done];
        intros [= <- <- <-]; right; do 4 eexists; (split; [done|]); by rewrite Hflow.
    + intros [= <- <- <-]. by left.
Qed.

(** C4: whenever [refreshSession] returns, the instance URL and the grant
    type of the session (and its token type, scope and credentials) are what
    they were; when it returns without error, the access token, identity,
    issued-at and signature are those of the token response the identity
    endpoint gave, whose own instance URL is not taken over. *)
Theorem refreshSession_frame auth h auth' err evs :
  refreshSession auth h = (Ret (auth', err), evs) →
  (InstanceUrl auth' = InstanceUrl auth ∧ grantType auth' = grantType auth ∧
   TokenType auth' = TokenType auth ∧ Scope auth' = Scope auth ∧ creds auth' = creds auth) ∧
  (err = None →
   ∃ url body resp respBody a u i t s d sg,
     evs = [Post url formType body] ∧
     http_Post h url formType body = (Some resp, None) ∧ Body resp = (respBody, None) ∧
     json_Unmarshal respBody = UnmarshalObject a u i t s d sg ∧
     AccessToken auth' = a ∧ Id auth' = i ∧ IssuedAt auth' = d ∧ Signature auth' = sg).
Proof.
  intros [(-> & -> & _)|(g & url & body & r & -> & Hflow & ->)]%refreshSession_cases.
  - split; [done|]. done.
  - split; [by destruct r|]. intros ->.
    apply flow_result in Hflow as [[err' [=]]|(resp & respBody & a & u & i & t & s & d & sg
      & Hpost & _ & Hbody & Hjson & [= ->])].
    by exists url, body, resp, respBody, a, u, i, t, s, d, sg.
Qed.

(** C5: a session whose grant type is neither the username-password nor the
    client-credentials one (the pre-issued-token sessions among them) is
    refused at once: the error is returned, the session is untouched and
    nothing is posted, whatever the identity endpoint would answer. *)
Theorem refreshSession_refused auth h :
  grantType auth ≠ grantTypeUsernamePassword →
  grantType auth ≠ grantTypeClientCredentials →
  refreshSession auth h = (Ret (auth, Some invalidSession), []).
Proof.
  intros Hp%String.eqb_neq Hc%String.eqb_neq. unfold refreshSession. by rewrite Hc, Hp.
Qed.

(** C9: the username-password flow posts once, to the domain followed by
    [/services/oauth2/token], a form-encoded body made of exactly the fields
    [grant_type=password], [client_id], [client_secret], [username] and
    [password], the last being the password followed by the security token;
    when it returns without error it returns a session tagged with the
    username-password grant type. *)
Theorem usernamePasswordFlow_request domain username password securityToken consumerKey consumerSecret h :
  ∃ payload out,
    usernamePasswordFlow domain username password securityToken consumerKey consumerSecret h =
      (out, [Post (domain +:+ "/services/oauth2/token") "application/x-www-form-urlencoded"
               (url_Values_Encode payload)]) ∧
    payload !! "grant_type" = Some ["password"] ∧
    payload !! "client_id" = Some [consumerKey] ∧
    payload !! "client_secret" = Some [consumerSecret] ∧
    payload !! "username" = Some [username] ∧
    payload !! "password" = Some [password +:+ securityToken] ∧
    dom payload = ({["grant_type"; "client_id"; "client_secret"; "username"; "password"]} : gset string) ∧
    (∀ r, out = Ret (r, None) →
       ∃ auth, r = Some auth ∧ grantType auth = grantTypeUsernamePassword).
Proof.
  exists (passwordForm username password securityToken consumerKey consumerSecret).
  eexists. split; [apply usernamePasswordFlow_run|].
  unfold passwordForm. do 5 (split; [done|]). split.
  - rewrite !dom_insert_L, dom_empty_L. set_solver.
  - intros r [[err [=]]|(resp & respBody & a & u & i & t & s & d & sg & _ & _ & _ & _ & [= ->])]%flow_result.
    by eexists.
Qed.

(** C10: a refresh that returns an error leaves the session as it was;
    in particular, when the flow selected by the grant type returns an error
    and no session, [refreshSession] returns that error, has made the calls
    of the flow and no other, and has changed no field. *)
Theorem refreshSession_failure auth h :
  (∀ auth' err evs, refreshSession auth h = (Ret (auth', Some err), evs) → auth' = auth) ∧
  (∀ err evs,
     grantType auth = grantTypeClientCredentials →
     clientCredentialsFlow (Creds.Domain (creds auth)) (Creds.ConsumerKey (creds auth))
       (Creds.ConsumerSecret (creds auth)) h = (Ret (None, Some err), evs) →
     refreshSession auth h = (Ret (auth, Some err), evs)) ∧
  (∀ err evs,
     grantType auth = grantTypeUsernamePassword →
     usernamePasswordFlow (Creds.Domain (creds auth)) (Creds.Username (creds auth))
       (Creds.Password (creds auth)) (Creds.SecurityToken (creds auth))
       (Creds.ConsumerKey (creds auth)) (Creds.ConsumerSecret (creds auth)) h =
       (Ret (None, Some err), evs) →
     refreshSession auth h = (Ret (auth, Some err), evs)).
Proof.
  repeat apply conj.
  - intros auth' err evs [(-> & _)|(g & url & body & r & -> & Hflow & ->)]%refreshSession_cases;
      [done|].
    by apply flow_result in Hflow as [[err' [= -> _]]|(? & ? & ? & ? & ? & ? & ? & ? & ? & _ & _ & _ & _ & [=])].
  - intros err evs Hg Hflow. rewrite refreshSession_run. simpl. by rewrite Hg, Hflow.
  - intros err evs Hg Hflow. rewrite refreshSession_run. simpl. by rewrite Hg, Hflow.
Qed.

End Session.

(** ** The statements at concrete inputs *)

(** Collection update and collection upsert, run on records with an
    identifier and an external id: the records handed to the serialiser
    still have both. *)
Lemma write_encoding_collections_keep_id :
  doUpdateCollection (RC := mockRecords 200 []) mockAuth "Account"
    (VSliceOfMaps [Some acme]) false [] =
    (Ret None,
     [Marshal (box_sObjectCollection
        {| AllOrNone := "false";
           Records := [Some (<["attributes" := attributes "Account"]> acme)] |});
      Request "PATCH" "/composite/sobjects/" "application/json" mockAuth "<json>"]) ∧
  (<["attributes" := attributes "Account"]> acme) !! "Id" = Some (VString "001") ∧
  doUpsertCollection (RC := mockRecords 200 []) mockAuth "Account" "Ext__c"
    (VSliceOfMaps [Some globex]) false [] =
    (Ret None,
     [Marshal (box_sObjectCollection
        {| AllOrNone := "false";
           Records := [Some (<["attributes" := attributes "Account"]> globex)] |});
      Request "PATCH" "/composite/sobjects/Account/Ext__c" "application/json" mockAuth "<json>"]) ∧
  (<["attributes" := attributes "Account"]> globex) !! "Ext__c" = Some (VString "X-2") ∧
  (<["attributes" := attributes "Account"]> globex) !! "Id" = Some (VString "002").
Proof. repeat split; vm_compute; reflexivity. Qed.

Lemma write_encoding_witness :
  (Marshal (VMap (Some (delete "Id" (<["attributes" := attributes "Account"]> acme))))
     ∈ (doInsertOne (RC := mockRecords 201 []) mockAuth "Account" (VMap (Some acme)) []).2) ∧
  ∃ m e, convertToMap (RC := mockRecords 201 []) (VMap (Some acme)) = (Some m, None) ∧
         VMap (Some (delete "Id" (<["attributes" := attributes "Account"]> acme))) = VMap (Some e) ∧
         strippedAndTagged "Account" m e.
Proof.
  assert (Marshal (VMap (Some (delete "Id" (<["attributes" := attributes "Account"]> acme))))
     ∈ (doInsertOne (RC := mockRecords 201 []) mockAuth "Account" (VMap (Some acme)) []).2) as Hin.
  { rewrite doInsertOne_run. simpl. apply list_elem_of_here. }
  split; [exact Hin|].
  exact (proj1 (write_encoding (RC := mockRecords 201 []) mockAuth "Account" "Ext__c"
                  (VMap (Some acme)) VNil false [] _) Hin).
Defined.

Lemma collection_cap_witness :
  doCollection (RC := mockRecords 200 []) InsertCollection mockAuth "Account"
    (VSliceOfMaps (replicate 201 (Some acme))) false [] = (Ret (Some tooManyRecords), []) ∧
  doCollection (RC := mockRecords 200 []) InsertCollection mockAuth "Account"
    (VSliceOfMaps (replicate 200 (Some acme))) false [] ≠ (Ret (Some tooManyRecords), []) ∧
  ∃ out evs,
    doCollection (RC := mockRecords 200 []) InsertCollection mockAuth "Account"
      (VSliceOfMaps (replicate 200 (Some acme))) false [] = (out, evs) ∧
    ∃ method uri body, Request method uri "application/json" mockAuth body ∈ evs.
Proof.
  split; [|split].
  - apply (collection_cap (RC := mockRecords 200 []) InsertCollection mockAuth "Account"
             (VSliceOfMaps (replicate 201 (Some acme))) false (replicate 201 (Some acme)) []);
      [reflexivity | rewrite length_replicate; lia].
  - apply (collection_cap (RC := mockRecords 200 []) InsertCollection mockAuth "Account"
             (VSliceOfMaps (replicate 200 (Some acme))) false (replicate 200 (Some acme)) []);
      [reflexivity | rewrite length_replicate; lia].
  - destruct (proj2 (collection_cap (RC := mockRecords 200 []) InsertCollection mockAuth "Account"
             (VSliceOfMaps (replicate 200 (Some acme))) false (replicate 200 (Some acme)) []
             eq_refl)) as [_ Hsend]; [rewrite length_replicate; lia|].
    destruct Hsend as (out & evs & Hrun & Hreq).
    + apply Forall_replicate. by exists acme.
    + exists out, evs. split; [exact Hrun|]. apply Hreq. reflexivity.
Defined.

Lemma doUpdateCollection_nil_record_witness :
  convertToSliceOfMaps (RC := mockRecords 200 []) (VSlice [VNil]) = Ret ([None], None) ∧
  missingId None ∧
  doUpdateCollection (RC := mockRecords 200 []) mockAuth "Account" (VSlice [VNil]) false [] =
    (Panic "assignment to entry in nil map", []).
Proof.
  split; [reflexivity|].
  apply (doUpdateCollection_nil_record (RC := mockRecords 200 []) mockAuth "Account"
           (VSlice [VNil]) false [] []); [reflexivity | simpl; lia].
Defined.

(** 201 records that all carry an identifier: collection delete sends
    nothing. *)
Lemma doDeleteCollection_over_cap :
  Forall2 (hasField "Id") (replicate 201 (Some acme)) (replicate 201 "001") ∧
  doDeleteCollection (RC := mockRecords 200 []) mockAuth "Account"
    (VSliceOfMaps (replicate 201 (Some acme))) true [] = (Ret (Some tooManyRecords), []).
Proof.
  split.
  - apply Forall2_replicate. split; [reflexivity | discriminate].
  - vm_compute. reflexivity.
Qed.

Lemma doDeleteCollection_request_witness :
  ∃ out, doDeleteCollection (RC := mockRecords 200 []) mockAuth "Account"
           (VSliceOfMaps [Some acme; Some globex]) true [] =
    (out, [Request "DELETE" "/composite/sobjects/?ids=001,002&allOrNone=true"
             "application/json" mockAuth ""]).
Proof.
  apply (doDeleteCollection_request (RC := mockRecords 200 []) mockAuth "Account"
           (VSliceOfMaps [Some acme; Some globex]) true [Some acme; Some globex] ["001"; "002"] []).
  - reflexivity.
  - repeat constructor; discriminate.
  - simpl; lia.
Defined.

Lemma composite_response_witness :
  Exists hasFailed secondFails ∧
  ∃ failures,
    (doCollection (RC := mockRecords 200 secondFails) UpdateCollection mockAuth "Account"
       (VSliceOfMaps [Some acme; Some globex; Some acme]) false []).1 =
      Ret (Some (RemoteErrors failures)) ∧
    (∀ i ds, mkFailedRecord i ds ∈ failures ↔
             ∃ e es, secondFails !! i = Some (Failed e es) ∧ ds = e :: es) ∧
    StronglySorted lt (index <$> failures).
Proof.
  assert (Exists hasFailed secondFails) as Hex by (right; left; exact I).
  split; [exact Hex|].
  assert (doCollection (RC := mockRecords 200 secondFails) UpdateCollection mockAuth "Account"
            (VSliceOfMaps [Some acme; Some globex; Some acme]) false [] =
          (Ret (Some (RemoteErrors [mkFailedRecord 1 [requiredFieldMissing]])),
           [Marshal (box_sObjectCollection
              {| AllOrNone := "false";
                 Records := [Some (<["attributes" := attributes "Account"]> acme);
                             Some (<["attributes" := attributes "Account"]> globex);
                             Some (<["attributes" := attributes "Account"]> acme)] |})]
           ++ [Request "PATCH" "/composite/sobjects/" "application/json" mockAuth "<json>"]))
    as Hrun by (vm_compute; reflexivity).
  rewrite Hrun.
  exact (proj2 (composite_response (RC := mockRecords 200 secondFails) UpdateCollection mockAuth
                  "Account" _ false [] _ _ "PATCH" "/composite/sobjects/" "<json>"
                  (mockResponse 200) Hrun eq_refl eq_refl) Hex).
Defined.

Lemma refreshSession_frame_witness :
  ∃ auth' evs,
    refreshSession (AC := mockAccepting) (mockSession grantTypeUsernamePassword) [] =
      (Ret (auth', None), evs) ∧
    InstanceUrl auth' = "https://na1.salesforce.com" ∧
    grantType auth' = grantTypeUsernamePassword ∧
    AccessToken auth' = "new-token".
Proof.
  destruct (refreshSession (AC := mockAccepting) (mockSession grantTypeUsernamePassword) [])
    as [[[auth' [err|]]|msg] evs] eqn:Hrun; try (by vm_compute in Hrun).
  exists auth', evs. split; [reflexivity|].
  destruct (refreshSession_frame (AC := mockAccepting) _ _ _ _ _ Hrun)
    as [(Hurl & Hgrant & _) Htoken].
  destruct (Htoken eq_refl) as (url & body & resp & respBody & a & u & i & t & s & d & sg
    & _ & Hpost & Hbody & Hjson & Ha & _).
  injection Hpost as <-. injection Hbody as <-. injection Hjson as <- _ _ _ _ _ _.
  by rewrite Hurl, Hgrant, Ha.
Defined.

Lemma refreshSession_refused_witness :
  grantType (mockSession grantTypeAccessToken) ≠ grantTypeUsernamePassword ∧
  grantType (mockSession grantTypeAccessToken) ≠ grantTypeClientCredentials ∧
  refreshSession (AC := mockAccepting) (mockSession grantTypeAccessToken) [] =
    (Ret (mockSession grantTypeAccessToken, Some invalidSession), []).
Proof.
  split; [discriminate|]. split; [discriminate|].
  apply (refreshSession_refused (AC := mockAccepting)); discriminate.
Defined.

Lemma usernamePasswordFlow_request_witness :
  ∃ auth,
    (usernamePasswordFlow (AC := mockAccepting) "https://login.salesforce.com"
       "user@example.com" "secret" "TOKEN" "key" "consumer-secret" []).1 = Ret (Some auth, None) ∧
    grantType auth = grantTypeUsernamePassword.
Proof.
  destruct (usernamePasswordFlow_request (AC := mockAccepting) "https://login.salesforce.com"
              "user@example.com" "secret" "TOKEN" "key" "consumer-secret" [])
    as (payload & out & Hrun & _ & _ & _ & _ & _ & _ & Hok).
  rewrite Hrun. simpl.
  destruct out as [[[auth|] [err|]]|msg]; try (by vm_compute in Hrun).
  exists auth. split; [reflexivity|].
  by destruct (Hok _ eq_refl) as (auth0 & [= <-] & Hg).
Defined.

Lemma refreshSession_failure_witness :
  clientCredentialsFlow (AC := mockRefusing) "https://login.salesforce.com" "key" "consumer-secret" [] =
    (Ret (None, Some (errors_New "400 Bad Request: failed authentication")),
     [Post "https://login.salesforce.com/services/oauth2/token" "application/x-www-form-urlencoded"
        "client_id=key&client_secret=consumer-secret&grant_type=client_credentials"]) ∧
  refreshSession (AC := mockRefusing) (mockSession grantTypeClientCredentials) [] =
    (Ret (mockSession grantTypeClientCredentials,
          Some (errors_New "400 Bad Request: failed authentication")),
     [Post "https://login.salesforce.com/services/oauth2/token" "application/x-www-form-urlencoded"
        "client_id=key&client_secret=consumer-secret&grant_type=client_credentials"]).
Proof.
  assert (clientCredentialsFlow (AC := mockRefusing) "https://login.salesforce.com" "key"
            "consumer-secret" [] =
    (Ret (None, Some (errors_New "400 Bad Request: failed authentication")),
     [Post "https://login.salesforce.com/services/oauth2/token" "application/x-www-form-urlencoded"
        "client_id=key&client_secret=consumer-secret&grant_type=client_credentials"])) as Hflow
    by (vm_compute; reflexivity).
  split; [exact Hflow|].
  exact (proj1 (proj2 (refreshSession_failure (AC := mockRefusing)
           (mockSession grantTypeClientCredentials) [])) _ _ eq_refl Hflow).
Defined.

(** ** More on the record operations *)

Section Runs.
Context `{RC : RecordCollaborators}.

Lemma doSingle_reaches op auth sObjectName record h :
  reaches h auth (expectedStatus op) (doSingle op auth sObjectName record h).
Proof.
  destruct op as [| |fieldName|]; simpl;
    rewrite ?doInsertOne_run, ?doUpdateOne_run, ?doUpsertOne_run, ?doDeleteOne_run;
    destruct (convertToMap record) as [[m|] [err|]];
    repeat match goal with
    | |- context [assert_string ?x] => destruct (assert_string x) as [? [|]]; simpl
    | |- context [(?s =? "")%string] => destruct (s =? "")%string
    end; by constructor.
Qed.

Lemma doCollection_reaches op auth sObjectName records allOrNone h :
  reaches h auth StatusOK (doCollection op auth sObjectName records allOrNone h).
Proof.
  destruct op as [| |fieldName|]; simpl;
    rewrite ?doInsertCollection_run, ?doUpdateCollection_run, ?doUpsertCollection_run,
      ?doDeleteCollection_run; unfold guarded;
    destruct (convertToSliceOfMaps records) as [[recordMap [err|]]|msg]; try (by constructor);
    destruct (200 <? length recordMap)%nat; try (by constructor).
  - destruct (insertLoop sObjectName recordMap); by constructor.
  - destruct (updateLoop sObjectName recordMap) as [[sent [err|]]|msg]; by constructor.
  - destruct (upsertLoop sObjectName fieldName recordMap) as [[sent [err|]]|msg]; by constructor.
  - destruct (deleteLoop _ _ _ _) as [ids [err|]]; by constructor.
Qed.


Lemma reaches_transport_error h auth expected out pre method uri content a body r err :
  reaches h auth expected (out, pre ++ [Request method uri content a body]) →
  doRequest (h ++ pre) method uri content a body = (r, Some err) →
  out = Ret (Some err).
Proof.
  intros Hrun Hreq.
  remember (out, pre ++ [Request method uri content a body]) as run eqn:Heq.
  destruct Hrun as [o Ho|v m u onE|m u onE].
  - injection Heq as _ Hevs. by destruct pre.
  - unfold serialiseAndSend, exchange in Heq. destruct (json_Marshal v) as [body' [err'|]].
    + injection Heq as _ Hevs. by apply (app_inj_tail []) in Hevs as [_ [=]].
    + injection Heq as <- [<- [= <- <- <- <- <-]]%(app_inj_tail [Marshal v]).
      rewrite Hreq. by destruct r.
  - unfold exchange in Heq.
    injection Heq as <- [<- [= <- <- <- <- <-]]%(app_inj_tail []).
    rewrite Hreq. by destruct r.
Qed.

Lemma afterRequest_success expected onExpected answer :
  (∀ resp, processSalesforceError resp ≠ None) →
  afterRequest expected onExpected answer = Ret None →
  ∃ resp, answer = (Some resp, None) ∧ StatusCode resp = expected ∧ onExpected resp = None.
Proof.
  intros Herr. unfold afterRequest. destruct answer as [[resp|] [err|]]; try done.
  destruct (StatusCode resp =? expected)%Z eqn:Hstatus.
  - intros [= Hon]. exists resp. by apply Z.eqb_eq in Hstatus.
  - intros [= Hnone]. by destruct (Herr resp).
Qed.

Lemma reaches_success h auth expected evs :
  (∀ resp, processSalesforceError resp ≠ None) →
  reaches h auth expected (Ret None, evs) →
  ∃ pre method uri body resp,
    evs = pre ++ [Request method uri jsonType auth body] ∧
    doRequest (h ++ pre) method uri jsonType auth body = (Some resp, None) ∧
    StatusCode resp = expected.
Proof.
  intros Herr Hrun. remember (Ret None, evs) as run eqn:Heq.
  destruct Hrun as [o Ho|v m u onE|m u onE].
  - injection Heq as Ho' _. by destruct Ho.
  - unfold serialiseAndSend, exchange in Heq. destruct (json_Marshal v) as [body [err|]]; [done|].
    injection Heq as Hout <-.
    apply afterRequest_success in Hout as (resp & Hreq & Hstatus & _); [|done].
    by exists [Marshal v], m, u, body, resp.
  - unfold exchange in Heq. injection Heq as Hout <-.
    apply afterRequest_success in Hout as (resp & Hreq & Hstatus & _); [|done].
    by exists [], m, u, "", resp.
Qed.

Lemma reaches_marshal_error h auth expected out evs v b err :
  reaches h auth expected (out, evs) →
  Marshal v ∈ evs → json_Marshal v = (b, Some err) →
  out = Ret (Some err) ∧ evs = [Marshal v].
Proof.
  intros Hrun Hin Hv. remember (out, evs) as run eqn:Heq.
  destruct Hrun as [o Ho|v' m u onE|m u onE].
  - injection Heq as _ <-. by apply elem_of_nil in Hin.
  - assert (v = v') as <-.
    { apply (serialiseAndSend_Marshal auth v' m u expected onE h). by rewrite Heq. }
    unfold serialiseAndSend in Heq. rewrite Hv in Heq. by injection Heq as <- <-.
  - unfold exchange in Heq. injection Heq as _ <-.
    by apply list_elem_of_singleton in Hin.
Qed.


(** X2: an error of the transport is what the operation returns, whether
    or not a response came with it. *)
Theorem transport_error_returned auth sObjectName h out pre method uri body r err :
  doRequest (h ++ pre) method uri jsonType auth body = (r, Some err) →
  (∀ op record,
     doSingle op auth sObjectName record h = (out, pre ++ [Request method uri jsonType auth body]) →
     out = Ret (Some err)) ∧
  (∀ op records allOrNone,
     doCollection op auth sObjectName records allOrNone h =
       (out, pre ++ [Request method uri jsonType auth body]) →
     out = Ret (Some err)).
Proof.
  intros Hreq. split.
  - intros op record Hrun. eapply reaches_transport_error; [|done].
    rewrite <- Hrun. apply doSingle_reaches.
  - intros op records allOrNone Hrun. eapply reaches_transport_error; [|done].
    rewrite <- Hrun. apply doCollection_reaches.
Qed.

(** X3: when serialisation fails, the operation returns the serialiser's
    error and sends nothing. *)
Theorem marshal_error_returned auth sObjectName h out evs v b err :
  json_Marshal v = (b, Some err) → Marshal v ∈ evs →
  (∀ op record,
     doSingle op auth sObjectName record h = (out, evs) →
     out = Ret (Some err) ∧ evs = [Marshal v]) ∧
  (∀ op records allOrNone,
     doCollection op auth sObjectName records allOrNone h = (out, evs) →
     out = Ret (Some err) ∧ evs = [Marshal v]).
Proof.
  intros Hv Hin. split.
  - intros op record Hrun. eapply reaches_marshal_error; [|done..].
    rewrite <- Hrun. apply doSingle_reaches.
  - intros op records allOrNone Hrun. eapply reaches_marshal_error; [|done..].
    rewrite <- Hrun. apply doCollection_reaches.
Qed.

(** X4: given that [processSalesforceError] never yields [nil], a
    single-record operation returns no error only after its one request was
    answered, without transport error, with the status the operation expects:
    201 for insert, 204 for update and delete, 200 for upsert. *)
Theorem single_success_acknowledged op auth sObjectName record h evs :
  (∀ resp, processSalesforceError resp ≠ None) →
  doSingle op auth sObjectName record h = (Ret None, evs) →
  ∃ pre method uri body resp,
    evs = pre ++ [Request method uri jsonType auth body] ∧
    doRequest (h ++ pre) method uri jsonType auth body = (Some resp, None) ∧
    StatusCode resp = expectedStatus op.
Proof.
  intros Herr Hrun. apply reaches_success; [done|]. rewrite <- Hrun. apply doSingle_reaches.
Qed.

(** X5: under the same proviso, a composite operation returns no error
    only after its one request was answered with status 200. *)
Theorem collection_success_acknowledged op auth sObjectName records allOrNone h evs :
  (∀ resp, processSalesforceError resp ≠ None) →
  doCollection op auth sObjectName records allOrNone h = (Ret None, evs) →
  ∃ pre method uri body resp,
    evs = pre ++ [Request method uri jsonType auth body] ∧
    doRequest (h ++ pre) method uri jsonType auth body = (Some resp, None) ∧
    StatusCode resp = StatusOK.
Proof.
  intros Herr Hrun. apply reaches_success; [done|]. rewrite <- Hrun. apply doCollection_reaches.
Qed.

End Runs.

Section Requests.
Context `{RC : RecordCollaborators}.


Lemma afterRequest_answered (expected : Z) (resp : Response) :
  afterRequest expected (fun _ => None) (Some resp, None) =
  Ret (if (StatusCode resp =? expected)%Z then None else processSalesforceError resp).
Proof. simpl. by destruct (StatusCode resp =? expected)%Z. Qed.

(** X6: insert of a record that converts to an allocated map serialises
    the map without ["Id"] and with the attributes block, posts the result to
    [/sobjects/<name>], and returns no error exactly on status 201; on any
    other status it returns what [processSalesforceError] makes of the
    response. *)
Theorem doInsertOne_request auth sObjectName record m body resp h :
  convertToMap record = (Some m, None) →
  json_Marshal (VMap (Some (delete "Id" (<["attributes" := attributes sObjectName]> m)))) =
    (body, None) →
  doRequest
    (h ++ [Marshal (VMap (Some (delete "Id" (<["attributes" := attributes sObjectName]> m))))])
    "POST" ("/sobjects/" +:+ sObjectName) jsonType auth body = (Some resp, None) →
  doInsertOne auth sObjectName record h =
    (Ret (if (StatusCode resp =? 201)%Z then None else processSalesforceError resp),
     [Marshal (VMap (Some (delete "Id" (<["attributes" := attributes sObjectName]> m))));
      Request "POST" ("/sobjects/" +:+ sObjectName) jsonType auth body]).
Proof.
  intros Hc Hv Hreq. rewrite doInsertOne_run, Hc. unfold serialiseAndSend, exchange.
  rewrite Hv. simpl. by rewrite Hreq, afterRequest_answered.
Qed.




(** X10: a composite insert, update or upsert of at most 200 records that
    get through its loop serialises one payload, made of the all-or-none flag
    as the string [true] or [false] and of the records in input order, and
    sends it in one request: POST [/composite/sobjects/] for insert, PATCH
    [/composite/sobjects/] for update, PATCH
    [/composite/sobjects/<name>/<field>] for upsert. *)
Theorem collection_request op auth sObjectName records allOrNone recordMap h :
  op ≠ DeleteCollection →
  convertToSliceOfMaps records = Ret (recordMap, None) →
  (length recordMap ≤ 200)%nat →
  Forall (acceptable op) recordMap →
  ∃ sent out,
    Forall2 (compositeEncoded op sObjectName) recordMap sent ∧
    let payload := box_sObjectCollection
                     {| AllOrNone := FormatBool allOrNone; Records := sent |} in
    doCollection op auth sObjectName records allOrNone h =
      (out, Marshal payload ::
            match json_Marshal payload with
            | (_, Some _) => []
            | (body, None) =>
                [Request (compositeMethod op) (compositeUri op sObjectName) jsonType auth body]
            end).
Proof.
  intros Hop Hc Hlen Hall.
  assert ((200 <? length recordMap)%nat = false) as Hcap by (apply Nat.ltb_ge; lia).
  destruct op as [| |fieldName|]; [| | |done]; simpl;
    rewrite ?doInsertCollection_run, ?doUpdateCollection_run, ?doUpsertCollection_run;
    unfold guarded; rewrite Hc, Hcap.
  - destruct (acceptable_insert sObjectName recordMap Hall) as [sent Hloop]. rewrite Hloop.
    exists sent. unfold serialiseAndSend, exchange.
    destruct (json_Marshal _) as [body [err|]]; eexists; (split; [by apply insertLoop_Ret|done]).
  - destruct (acceptable_update sObjectName recordMap Hall) as [sent Hloop]. rewrite Hloop.
    exists sent. unfold serialiseAndSend, exchange.
    destruct (json_Marshal _) as [body [err|]]; eexists; (split; [by apply updateLoop_Ret|done]).
  - destruct (acceptable_upsert sObjectName fieldName recordMap Hall) as [sent Hloop].
    rewrite Hloop. exists sent. unfold serialiseAndSend, exchange.
    destruct (json_Marshal _) as [body [err|]]; eexists; (split; [by apply upsertLoop_Ret|done]).
Qed.

(** X11: when the decoder refuses the input, every operation returns the
    fixed decoding error, not the decoder's own, and neither serialises nor
    sends anything. *)
Theorem decode_error_local auth sObjectName h :
  (∀ op record x err,
     (∀ m, record ≠ VMap m) → mapstructure_Decode_map record = (x, Some err) →
     doSingle op auth sObjectName record h = (Ret (Some decodeError), [])) ∧
  (∀ op records allOrNone x err,
     (∀ m, records ≠ VMap m) → mapstructure_Decode_slice records = (x, Some err) →
     doCollection op auth sObjectName records allOrNone h = (Ret (Some decodeError), [])).
Proof.
  split.
  - intros op record x err Hmap Hdec.
    assert (convertToMap record = (None, Some decodeError)) as Hc.
    { unfold convertToMap. rewrite Hdec. destruct record; try done. by destruct (Hmap m). }
    destruct op; simpl;
      rewrite ?doInsertOne_run, ?doUpdateOne_run, ?doUpsertOne_run, ?doDeleteOne_run;
      by rewrite Hc.
  - intros op records allOrNone x err Hmap Hdec.
    assert (convertToSliceOfMaps records = Ret ([], Some decodeError)) as Hc.
    { unfold convertToSliceOfMaps. rewrite Hdec. destruct records; try done. by destruct (Hmap m). }
    destruct op; simpl;
      rewrite ?doInsertCollection_run, ?doUpdateCollection_run, ?doUpsertCollection_run,
        ?doDeleteCollection_run; unfold guarded; by rewrite Hc.
Qed.

(** X12: handed a single [map[string]any] where a collection is due, each
    of the four composite operations panics, before anything is serialised or
    sent. *)
Theorem collection_of_map_panics op auth sObjectName (m : gomap) allOrNone h :
  ∃ msg, doCollection op auth sObjectName (VMap m) allOrNone h = (Panic msg, []).
Proof.
  destruct op; simpl;
    rewrite ?doInsertCollection_run, ?doUpdateCollection_run, ?doUpsertCollection_run,
      ?doDeleteCollection_run; unfold guarded; simpl; by eexists.
Qed.

Lemma lacksField_check (k : string) (r : gomap) :
  lacksField k r →
  ∃ s ok, assert_string (go_index r k) = (s, ok) ∧ negb ok || (s =? "")%string = true.
Proof.
  unfold lacksField. destruct (go_index r k); simpl; intros Hm; eauto.
  subst s. eauto.
Qed.

Lemma lacksField_missingId (r : gomap) : lacksField "Id" r ↔ missingId r.
Proof. done. Qed.

(** X13: a single-record update or delete of a record whose ["Id"] is
    absent, not a string or empty returns the identifier error, and an upsert
    of a record whose external-id field is so returns the external-id error;
    nothing is serialised or sent.  A nil map is such a record. *)
Theorem single_missing_identifier auth sObjectName fieldName record recordMap h :
  convertToMap record = (recordMap, None) →
  (lacksField "Id" recordMap →
     doUpdateOne auth sObjectName record h = (Ret (Some idNotFound), []) ∧
     doDeleteOne auth sObjectName record h = (Ret (Some idNotFound), [])) ∧
  (lacksField fieldName recordMap →
     doUpsertOne auth sObjectName fieldName record h =
       (Ret (Some (externalIdNotFound fieldName sObjectName)), [])).
Proof.
  intros Hc. split.
  - intros (s & ok & Ha & Hb)%lacksField_check. split.
    + unfold doUpdateOne. rewrite Hc, Ha, Hb. reflexivity.
    + unfold doDeleteOne. rewrite Hc, Ha, Hb. reflexivity.
  - intros (s & ok & Ha & Hb)%lacksField_check.
    unfold doUpsertOne. rewrite Hc, Ha, Hb. reflexivity.
Qed.

(** On allocated maps the upsert loop returns, and with the external-id
    error as soon as one record lacks the field. *)
Lemma upsertLoop_lacksField (sObjectName fieldName : string) (recordMap : list gomap) :
  Forall is_Some recordMap → Exists (lacksField fieldName) recordMap →
  ∃ out, upsertLoop sObjectName fieldName recordMap =
           Ret (out, Some (externalIdNotFound fieldName sObjectName)).
Proof.
  intros Hall. induction Hall as [|r rest [m ->] _ IH]; intros Hm; [by apply Exists_nil in Hm|].
  simpl. run.
  destruct (assert_string (default VNil (<["attributes" := attributes sObjectName]> m !! fieldName)))
    as [x ok] eqn:Ha.
  destruct (negb ok || (x =? "")%string) eqn:Hb; [eauto|].
  apply Exists_cons in Hm as [Hm|Hm].
  - exfalso. apply lacksField_check in Hm as (s' & ok' & Ha' & Hb'). simpl in Ha'.
    destruct (decide (fieldName = "attributes")) as [->|Hk].
    + rewrite lookup_insert_eq in Ha. simpl in Ha. injection Ha as <- <-. done.
    + rewrite lookup_insert_ne in Ha by done. congruence.
  - destruct (IH Hm) as [out ->]. simpl. eauto.
Qed.

(** X14: in a composite delete of at most 200 records of which one lacks
    a usable ["Id"], and in a composite update or upsert of at most 200
    allocated maps of which one lacks a usable ["Id"], respectively external
    id, the operation returns the identifier error, respectively the
    external-id error, and nothing is serialised or sent. *)
Theorem collection_missing_identifier auth sObjectName fieldName records allOrNone recordMap h :
  convertToSliceOfMaps records = Ret (recordMap, None) →
  (length recordMap ≤ 200)%nat →
  (Exists (lacksField "Id") recordMap →
     doDeleteCollection auth sObjectName records allOrNone h = (Ret (Some idNotFound), [])) ∧
  (Forall is_Some recordMap → Exists (lacksField "Id") recordMap →
     doUpdateCollection auth sObjectName records allOrNone h = (Ret (Some idNotFound), [])) ∧
  (Forall is_Some recordMap → Exists (lacksField fieldName) recordMap →
     doUpsertCollection auth sObjectName fieldName records allOrNone h =
       (Ret (Some (externalIdNotFound fieldName sObjectName)), [])).
Proof.
  intros Hc Hlen.
  assert ((200 <? length recordMap)%nat = false) as Hcap by (apply Nat.ltb_ge; lia).
  repeat apply conj.
  - intros Hm. rewrite (doDeleteCollection_missingId _ _ _ _ recordMap) by done. by rewrite Hcap.
  - intros Hall Hm. rewrite (doUpdateCollection_missingId _ _ _ _ recordMap) by done.
    by rewrite Hcap.
  - intros Hall Hm. rewrite doUpsertCollection_run. unfold guarded. rewrite Hc, Hcap.
    by destruct (upsertLoop_lacksField sObjectName fieldName recordMap Hall Hm) as [out ->].
Qed.

Lemma insertLoop_nil (sObjectName : string) (recordMap : list gomap) :
  None ∈ recordMap → insertLoop sObjectName recordMap = Panic "assignment to entry in nil map".
Proof.
  induction recordMap as [|r rest IH]; [by intros ?%elem_of_nil|].
  intros Hin. simpl. destruct r as [m|]; [|done]. run.
  apply elem_of_cons in Hin as [[=]|Hin]. by rewrite IH.
Qed.

(** X15: insert panics on a nil map: single-record insert when the record
    converts to one, composite insert when the list of at most 200 records
    holds one anywhere.  Nothing is serialised or sent. *)
Theorem insert_nil_record_panics auth sObjectName h :
  (∀ record,
     convertToMap record = (None, None) →
     doInsertOne auth sObjectName record h = (Panic "assignment to entry in nil map", [])) ∧
  (∀ records allOrNone recordMap,
     convertToSliceOfMaps records = Ret (recordMap, None) →
     (length recordMap ≤ 200)%nat → None ∈ recordMap →
     doInsertCollection auth sObjectName records allOrNone h =
       (Panic "assignment to entry in nil map", [])).
Proof.
  split.
  - intros record Hc. by rewrite doInsertOne_run, Hc.
  - intros records allOrNone recordMap Hc Hlen Hin.
    rewrite doInsertCollection_run. unfold guarded. rewrite Hc.
    replace (200 <? length recordMap)%nat with false by (symmetry; apply Nat.ltb_ge; lia).
    by rewrite insertLoop_nil.
Qed.

End Requests.

(** ** More on sessions *)

Section Flows.
Context `{AC : AuthCollaborators}.

(** X16: the client-credentials flow posts once, to the domain followed by
    [/services/oauth2/token], a form-encoded body made of exactly the fields
    [grant_type=client_credentials], [client_id] and [client_secret]; when it
    returns without error it returns a session tagged with the
    client-credentials grant type. *)
Theorem clientCredentialsFlow_request domain consumerKey consumerSecret h :
  ∃ payload out,
    clientCredentialsFlow domain consumerKey consumerSecret h =
      (out, [Post (domain +:+ "/services/oauth2/token") "application/x-www-form-urlencoded"
               (url_Values_Encode payload)]) ∧
    payload !! "grant_type" = Some ["client_credentials"] ∧
    payload !! "client_id" = Some [consumerKey] ∧
    payload !! "client_secret" = Some [consumerSecret] ∧
    dom payload = ({["grant_type"; "client_id"; "client_secret"]} : gset string) ∧
    (∀ r, out = Ret (r, None) →
       ∃ auth, r = Some auth ∧ grantType auth = grantTypeClientCredentials).
Proof.
  exists (clientForm consumerKey consumerSecret).
  eexists. split; [apply clientCredentialsFlow_run|].
  unfold clientForm. do 3 (split; [done|]). split.
  - rewrite !dom_insert_L, dom_empty_L. set_solver.
  - intros r [[err [=]]|(resp & respBody & a & u & i & t & s & d & sg & _ & _ & _ & _ & [= ->])]%flow_result.
    by eexists.
Qed.

Lemma flowsOf_run domain username password securityToken consumerKey consumerSecret h :
  Forall (fun '(run, body, g) =>
            run = (tagged g (authResult (http_Post h (tokenEndpoint domain) formType body)),
                   [Post (tokenEndpoint domain) formType body]))
    (flowsOf domain username password securityToken consumerKey consumerSecret h).
Proof.
  unfold flowsOf. repeat apply List.Forall_cons; try apply List.Forall_nil.
  - apply usernamePasswordFlow_run.
  - apply clientCredentialsFlow_run.
Qed.

(** X17: when the identity endpoint answers 200 with a body that decodes
    to a token response, each flow returns a session whose seven exported
    fields are those of the response, whose grant type is the flow's, and
    whose credentials are empty. *)
Theorem flow_session domain username password securityToken consumerKey consumerSecret h :
  Forall (fun '(run, body, g) =>
            ∀ resp respBody a u i t s d sg,
              http_Post h (tokenEndpoint domain) formType body = (Some resp, None) →
              StatusCode resp = 200%Z → Body resp = (respBody, None) →
              json_Unmarshal respBody = UnmarshalObject a u i t s d sg →
              run.1 = Ret (Some {| AccessToken := a; InstanceUrl := u; Id := i; TokenType := t;
                                   Scope := s; IssuedAt := d; Signature := sg; grantType := g;
                                   creds := Creds.mkCreds "" "" "" "" "" "" "" |}, None))
    (flowsOf domain username password securityToken consumerKey consumerSecret h).
Proof.
  eapply Forall_impl; [apply flowsOf_run|]. intros [[run body] g] ->.
  intros resp respBody a u i t s d sg Hpost Hstatus Hbody Hjson. simpl.
  unfold authResult. rewrite Hpost, Hstatus, Hbody, Hjson. reflexivity.
Qed.

(** X18: each flow returns the error of the failing step and no session:
    the error of [http.Post]; on a status other than 200 the error made of
    the status line followed by [": failed authentication"]; the error of
    reading the body; the error of [json.Unmarshal]. *)
Theorem flow_failures domain username password securityToken consumerKey consumerSecret h :
  Forall (fun '(run, body, g) =>
            let answer := http_Post h (tokenEndpoint domain) formType body in
            (∀ r err, answer = (r, Some err) → run.1 = Ret (None, Some err)) ∧
            (∀ resp, answer = (Some resp, None) → StatusCode resp ≠ 200%Z →
               run.1 = Ret (None, Some (errors_New (Status resp +:+ ": failed authentication")))) ∧
            (∀ resp b err, answer = (Some resp, None) → StatusCode resp = 200%Z →
               Body resp = (b, Some err) → run.1 = Ret (None, Some err)) ∧
            (∀ resp b err, answer = (Some resp, None) → StatusCode resp = 200%Z →
               Body resp = (b, None) → json_Unmarshal b = UnmarshalError err →
               run.1 = Ret (None, Some err)))
    (flowsOf domain username password securityToken consumerKey consumerSecret h).
Proof.
  eapply Forall_impl; [apply flowsOf_run|]. intros [[run body] g] ->. simpl.
  unfold authResult. repeat apply conj.
  - intros r err ->. by destruct r.
  - intros resp -> Hstatus%Z.eqb_neq. unfold StatusOK. by rewrite Hstatus.
  - intros resp b err -> -> ->. reflexivity.
  - intros resp b err -> -> -> ->. reflexivity.
Qed.

(** X19: when the identity endpoint answers 200 with a body that
    [json.Unmarshal] reads into the nil pointer (the JSON literal [null]),
    each flow has posted and then panics on the nil session; a refresh of a
    session of either grant type panics with it. *)
Theorem flow_null_body domain username password securityToken consumerKey consumerSecret h :
  Forall (fun '(run, body, g) =>
            ∀ resp respBody,
              http_Post h (tokenEndpoint domain) formType body = (Some resp, None) →
              StatusCode resp = 200%Z → Body resp = (respBody, None) →
              json_Unmarshal respBody = UnmarshalNull →
              ∃ msg, run = (Panic msg, [Post (tokenEndpoint domain) formType body]))
    (flowsOf domain username password securityToken consumerKey consumerSecret h) ∧
  (∀ auth resp respBody,
     refreshRequest auth ≠ [] →
     (∀ url body, http_Post h url formType body = (Some resp, None)) →
     StatusCode resp = 200%Z → Body resp = (respBody, None) →
     json_Unmarshal respBody = UnmarshalNull →
     ∃ msg, refreshSession auth h = (Panic msg, refreshRequest auth)).
Proof.
  split.
  - eapply Forall_impl; [apply flowsOf_run|]. intros [[run body] g] ->.
    intros resp respBody Hpost Hstatus Hbody Hjson.
    unfold authResult. rewrite Hpost, Hstatus, Hbody, Hjson. by eexists.
  - intros auth resp respBody Hreq Hpost Hstatus Hbody Hjson.
    rewrite refreshSession_run. unfold refreshRequest in *. simpl.
    destruct (grantType auth =? grantTypeClientCredentials)%string.
    + rewrite clientCredentialsFlow_run. simpl. unfold authResult.
      rewrite Hpost, Hstatus, Hbody, Hjson. by eexists.
    + destruct (grantType auth =? grantTypeUsernamePassword)%string; [|done].
      rewrite usernamePasswordFlow_run. simpl. unfold authResult.
      rewrite Hpost, Hstatus, Hbody, Hjson. by eexists.
Qed.

Lemma refreshSession_events auth h : (refreshSession auth h).2 = refreshRequest auth.
Proof.
  rewrite refreshSession_run. unfold refreshRequest. simpl.
  destruct (grantType auth =? grantTypeClientCredentials)%string.
  - rewrite clientCredentialsFlow_run. simpl. by destruct (tagged _ _) as [[[r|] err]|msg].
  - destruct (grantType auth =? grantTypeUsernamePassword)%string; [|done].
    rewrite usernamePasswordFlow_run. simpl. by destruct (tagged _ _) as [[[r|] err]|msg].
Qed.

(** X20: a refresh posts at most once, and what it posts is fixed by the
    grant type and the stored credentials alone: for the username-password
    grant the five-field form, for the client-credentials grant the
    three-field form, built from [auth.creds] and sent to
    [creds.Domain + "/services/oauth2/token"]; the session's own token and
    instance URL play no part, nor does the outcome. *)
Theorem refreshSession_posts auth h :
  (grantType auth = grantTypeUsernamePassword →
   (refreshSession auth h).2 =
     [Post (Creds.Domain (creds auth) +:+ "/services/oauth2/token")
        "application/x-www-form-urlencoded"
        (url_Values_Encode
           (passwordForm (Creds.Username (creds auth)) (Creds.Password (creds auth))
              (Creds.SecurityToken (creds auth)) (Creds.ConsumerKey (creds auth))
              (Creds.ConsumerSecret (creds auth))))]) ∧
  (grantType auth = grantTypeClientCredentials →
   (refreshSession auth h).2 =
     [Post (Creds.Domain (creds auth) +:+ "/services/oauth2/token")
        "application/x-www-form-urlencoded"
        (url_Values_Encode
           (clientForm (Creds.ConsumerKey (creds auth)) (Creds.ConsumerSecret (creds auth))))]).
Proof.
  rewrite refreshSession_events. unfold refreshRequest. split; intros ->; reflexivity.
Qed.

(** X21: a refresh that returns, with or without error, leaves a session
    whose next refresh posts the same request again. *)
Theorem refreshSession_repeatable auth h auth' err evs h' :
  refreshSession auth h = (Ret (auth', err), evs) →
  (refreshSession auth' h').2 = evs.
Proof.
  intros Hrun. rewrite refreshSession_events.
  assert (evs = refreshRequest auth) as ->.
  { rewrite <- (refreshSession_events auth h). by rewrite Hrun. }
  apply refreshSession_cases in Hrun as [(-> & _)|(g & url & body & r & _ & _ & ->)]; [done|].
  by destruct r.
Qed.

End Flows.

Section Validation.
Context `{PC : Probe.SessionCollaborators}.

(** X22: [setAccessToken] with an empty access token returns the
    not-authenticated error and no session without calling [doRequest]. *)
Theorem setAccessToken_empty domain :
  setAccessToken domain "" = ((None, Some notAuthenticated), []).
Proof. reflexivity. Qed.

(** X23: [setAccessToken] with a non-empty access token calls [doRequest]
    once, with GET [/limits] on the session made of the domain and the token;
    it returns the error of that call if there is one, and otherwise,
    whatever the response, that session tagged with the access-token grant
    type. *)
Theorem setAccessToken_probe domain accessToken :
  accessToken ≠ "" →
  setAccessToken domain accessToken =
    (match Probe.doRequest (presetSession domain accessToken) limitsProbe with
     | (_, Some err) => (None, Some err)
     | (_, None) => (Some (set_grantType (presetSession domain accessToken) grantTypeAccessToken), None)
     end,
     [(presetSession domain accessToken, limitsProbe)]).
Proof.
  intros Hne%String.eqb_neq. unfold setAccessToken, validateSession, validateAuth. simpl.
  fold (presetSession domain accessToken). rewrite Hne.
  change {| requestPayload.method := MethodGet; requestPayload.uri := "/limits";
            requestPayload.content := Probe.jsonType |} with limitsProbe.
  by destruct (Probe.doRequest _ _) as [r [err|]].
Qed.

(** X24: a session returned by [setAccessToken] cannot be refreshed:
    [refreshSession] returns the invalid-session error on it, leaves it as it
    is and posts nothing, for every identity endpoint. *)
Theorem setAccessToken_not_refreshable `{AC : AuthCollaborators} domain accessToken auth calls h :
  setAccessToken domain accessToken = ((Some auth, None), calls) →
  refreshSession auth h = (Ret (auth, Some invalidSession), []).
Proof.
  unfold setAccessToken. destruct (validateSession _) as [[err|] calls']; [done|].
  intros [= <- _]. reflexivity.
Qed.

End Validation.

(** ** The further statements at concrete inputs *)

Lemma transport_error_returned_witness :
  doSingle (RC := mockUnreachable) DeleteOne mockAuth "Account" (VMap (Some acme)) [] =
    (Ret (Some (errors_New "dial tcp: connection refused")),
     [] ++ [Request "DELETE" "/sobjects/Account/001" "application/json" mockAuth ""]).
Proof.
  assert (∃ out, doSingle (RC := mockUnreachable) DeleteOne mockAuth "Account" (VMap (Some acme)) [] =
            (out, [] ++ [Request "DELETE" "/sobjects/Account/001" "application/json" mockAuth ""]))
    as [out Hrun] by (eexists; vm_compute; reflexivity).
  rewrite Hrun. f_equal.
  exact (proj1 (transport_error_returned (RC := mockUnreachable) mockAuth "Account" [] out []
                  "DELETE" "/sobjects/Account/001" "" None
                  (errors_New "dial tcp: connection refused") eq_refl) DeleteOne _ Hrun).
Defined.

Lemma marshal_error_returned_witness :
  doSingle (RC := mockUnserialisable) InsertOne mockAuth "Account" (VMap (Some acme)) [] =
    (Ret (Some (errors_New "json: unsupported value")),
     [Marshal (VMap (Some (delete "Id" (<["attributes" := attributes "Account"]> acme))))]).
Proof.
  assert (∃ out evs,
            doSingle (RC := mockUnserialisable) InsertOne mockAuth "Account" (VMap (Some acme)) [] =
              (out, evs) ∧
            Marshal (VMap (Some (delete "Id" (<["attributes" := attributes "Account"]> acme)))) ∈ evs)
    as (out & evs & Hrun & Hin).
  { eexists _, _. split; [vm_compute; reflexivity|]. apply list_elem_of_here. }
  destruct (proj1 (marshal_error_returned (RC := mockUnserialisable) mockAuth "Account" [] out evs
                     _ "" (errors_New "json: unsupported value") eq_refl Hin) InsertOne _ Hrun)
    as [-> ->].
  exact Hrun.
Defined.

Lemma single_success_acknowledged_witness :
  ∃ pre method uri body resp,
    (doSingle (RC := mockRecords 201 []) InsertOne mockAuth "Account" (VMap (Some acme)) []).2 =
      pre ++ [Request method uri "application/json" mockAuth body] ∧
    StatusCode resp = 201%Z.
Proof.
  destruct (doSingle (RC := mockRecords 201 []) InsertOne mockAuth "Account" (VMap (Some acme)) [])
    as [out evs] eqn:Hrun.
  assert (out = Ret None) as -> by (apply (f_equal fst) in Hrun; by vm_compute in Hrun).
  destruct (single_success_acknowledged (RC := mockRecords 201 []) InsertOne mockAuth "Account"
              (VMap (Some acme)) [] evs (fun _ => ltac:(discriminate)) Hrun)
    as (pre & method & uri & body & resp & Hevs & _ & Hstatus).
  by exists pre, method, uri, body, resp.
Defined.

Lemma collection_success_acknowledged_witness :
  ∃ pre method uri body resp,
    (doCollection (RC := mockRecords 200 []) DeleteCollection mockAuth "Account"
       (VSliceOfMaps [Some acme; Some globex]) true []).2 =
      pre ++ [Request method uri "application/json" mockAuth body] ∧
    StatusCode resp = 200%Z.
Proof.
  destruct (doCollection (RC := mockRecords 200 []) DeleteCollection mockAuth "Account"
              (VSliceOfMaps [Some acme; Some globex]) true []) as [out evs] eqn:Hrun.
  assert (out = Ret None) as -> by (apply (f_equal fst) in Hrun; by vm_compute in Hrun).
  destruct (collection_success_acknowledged (RC := mockRecords 200 []) DeleteCollection mockAuth
              "Account" _ true [] evs (fun _ => ltac:(discriminate)) Hrun)
    as (pre & method & uri & body & resp & Hevs & _ & Hstatus).
  by exists pre, method, uri, body, resp.
Defined.

Lemma doInsertOne_request_witness :
  doInsertOne (RC := mockRecords 201 []) mockAuth "Account" (VMap (Some acme)) [] =
    (Ret None,
     [Marshal (VMap (Some (delete "Id" (<["attributes" := attributes "Account"]> acme))));
      Request "POST" "/sobjects/Account" "application/json" mockAuth "<json>"]).
Proof.
  exact (doInsertOne_request (RC := mockRecords 201 []) mockAuth "Account" (VMap (Some acme)) acme
           "<json>" (mockResponse 201) [] eq_refl eq_refl eq_refl).
Defined.




Lemma collection_request_witness :
  ∃ sent out,
    Forall2 (compositeEncoded (UpsertCollection "Ext__c") "Account") [Some globex] sent ∧
    doCollection (RC := mockRecords 200 []) (UpsertCollection "Ext__c") mockAuth "Account"
      (VSliceOfMaps [Some globex]) true [] =
      (out, [Marshal (box_sObjectCollection {| AllOrNone := "true"; Records := sent |});
             Request "PATCH" "/composite/sobjects/Account/Ext__c" "application/json" mockAuth
               "<json>"]).
Proof.
  destruct (collection_request (RC := mockRecords 200 []) (UpsertCollection "Ext__c") mockAuth
              "Account" (VSliceOfMaps [Some globex]) true [Some globex] [])
    as (sent & out & Hsent & Hrun).
  - discriminate.
  - reflexivity.
  - simpl; lia.
  - repeat constructor; [discriminate|]. exists "X-2". split; [reflexivity|discriminate].
  - exists sent, out. split; [exact Hsent|exact Hrun].
Defined.

Lemma decode_error_local_witness :
  doSingle (RC := mockRecords 200 []) UpdateOne mockAuth "Account" (VInt 42) [] =
    (Ret (Some decodeError), []) ∧
  doCollection (RC := mockRecords 200 []) InsertCollection mockAuth "Account" (VString "Acme")
    false [] = (Ret (Some decodeError), []).
Proof.
  split.
  - apply (proj1 (decode_error_local (RC := mockRecords 200 []) mockAuth "Account" [])
             UpdateOne (VInt 42) None (errors_New "expected a map")); [discriminate|reflexivity].
  - apply (proj2 (decode_error_local (RC := mockRecords 200 []) mockAuth "Account" [])
             InsertCollection (VString "Acme") false []
             (errors_New "source data must be an array or slice")); [discriminate|reflexivity].
Defined.

Lemma single_missing_identifier_witness :
  lacksField "Id" (Some anonymous) ∧ lacksField "Ext__c" (Some anonymous) ∧
  doUpdateOne (RC := mockRecords 204 []) mockAuth "Account" (VMap (Some anonymous)) [] =
    (Ret (Some idNotFound), []) ∧
  doDeleteOne (RC := mockRecords 204 []) mockAuth "Account" (VMap (Some anonymous)) [] =
    (Ret (Some idNotFound), []) ∧
  doUpsertOne (RC := mockRecords 200 []) mockAuth "Account" "Ext__c" (VMap (Some anonymous)) [] =
    (Ret (Some (externalIdNotFound "Ext__c" "Account")), []).
Proof.
  split; [exact I|]. split; [exact I|].
  destruct (single_missing_identifier (RC := mockRecords 204 []) mockAuth "Account" "Ext__c"
              (VMap (Some anonymous)) (Some anonymous) [] eq_refl) as [Hid _].
  destruct (single_missing_identifier (RC := mockRecords 200 []) mockAuth "Account" "Ext__c"
              (VMap (Some anonymous)) (Some anonymous) [] eq_refl) as [_ Hext].
  destruct (Hid I) as [Hupdate Hdelete]. split; [exact Hupdate|]. split; [exact Hdelete|].
  exact (Hext I).
Defined.

Lemma collection_missing_identifier_witness :
  doDeleteCollection (RC := mockRecords 200 []) mockAuth "Account"
    (VSliceOfMaps [Some acme; None; Some globex]) false [] = (Ret (Some idNotFound), []) ∧
  doUpdateCollection (RC := mockRecords 200 []) mockAuth "Account"
    (VSliceOfMaps [Some acme; Some anonymous]) false [] = (Ret (Some idNotFound), []) ∧
  doUpsertCollection (RC := mockRecords 200 []) mockAuth "Account" "Ext__c"
    (VSliceOfMaps [Some globex; Some acme]) false [] =
    (Ret (Some (externalIdNotFound "Ext__c" "Account")), []).
Proof.
  repeat apply conj.
  - apply (proj1 (collection_missing_identifier (RC := mockRecords 200 []) mockAuth "Account"
                    "Ext__c" (VSliceOfMaps [Some acme; None; Some globex]) false [Some acme; None; Some globex] [] eq_refl
                    ltac:(simpl; lia))).
    right; left; exact I.
  - apply (proj1 (proj2 (collection_missing_identifier (RC := mockRecords 200 []) mockAuth
                    "Account" "Ext__c" (VSliceOfMaps [Some acme; Some anonymous]) false [Some acme; Some anonymous] [] eq_refl
                    ltac:(simpl; lia)))).
    + repeat constructor; by eexists.
    + right; left; exact I.
  - apply (proj2 (proj2 (collection_missing_identifier (RC := mockRecords 200 []) mockAuth
                    "Account" "Ext__c" (VSliceOfMaps [Some globex; Some acme]) false [Some globex; Some acme] [] eq_refl
                    ltac:(simpl; lia)))).
    + repeat constructor; by eexists.
    + right; left; exact I.
Defined.

Lemma insert_nil_record_panics_witness :
  doInsertOne (RC := mockRecords 201 []) mockAuth "Account" VNil [] =
    (Panic "assignment to entry in nil map", []) ∧
  doInsertCollection (RC := mockRecords 200 []) mockAuth "Account"
    (VSliceOfMaps [Some acme; None]) false [] = (Panic "assignment to entry in nil map", []).
Proof.
  split.
  - apply (proj1 (insert_nil_record_panics (RC := mockRecords 201 []) mockAuth "Account" [])).
    reflexivity.
  - apply (proj2 (insert_nil_record_panics (RC := mockRecords 200 []) mockAuth "Account" [])
             (VSliceOfMaps [Some acme; None]) false [Some acme; None]); [reflexivity | simpl; lia |].
    right; left.
Defined.

Lemma flow_session_witness :
  (clientCredentialsFlow (AC := mockAccepting) "https://login.salesforce.com" "key"
     "consumer-secret" []).1 =
    Ret (Some {| AccessToken := "new-token"; InstanceUrl := "https://eu1.salesforce.com";
                 Id := "https://login.salesforce.com/id/2"; TokenType := "Bearer"; Scope := "api";
                 IssuedAt := "2"; Signature := "new-signature";
                 grantType := grantTypeClientCredentials;
                 creds := Creds.mkCreds "" "" "" "" "" "" "" |}, None).
Proof.
  pose proof (flow_session (AC := mockAccepting) "https://login.salesforce.com" "user@example.com"
                "secret" "TOKEN" "key" "consumer-secret" []) as Hflows.
  apply Forall_cons in Hflows as [_ Hflows]. apply Forall_cons in Hflows as [Hclient _].
  exact (Hclient _ _ _ _ _ _ _ _ _ eq_refl eq_refl eq_refl eq_refl).
Defined.

Lemma flow_failures_witness :
  (usernamePasswordFlow (AC := mockRefusing) "https://login.salesforce.com" "user@example.com"
     "secret" "TOKEN" "key" "consumer-secret" []).1 =
    Ret (None, Some (errors_New "400 Bad Request: failed authentication")).
Proof.
  pose proof (flow_failures (AC := mockRefusing) "https://login.salesforce.com" "user@example.com"
                "secret" "TOKEN" "key" "consumer-secret" []) as Hflows.
  apply Forall_cons in Hflows as [(_ & Hstatus & _) _].
  apply (Hstatus _ eq_refl). discriminate.
Defined.

Lemma flow_null_body_witness :
  ∃ msg, refreshSession (AC := mockNull) (mockSession grantTypeUsernamePassword) [] =
           (Panic msg, refreshRequest (AC := mockNull) (mockSession grantTypeUsernamePassword)).
Proof.
  apply (proj2 (flow_null_body (AC := mockNull) "https://login.salesforce.com" "user@example.com"
                  "secret" "TOKEN" "key" "consumer-secret" [])
           (mockSession grantTypeUsernamePassword)
           {| Status := "200 OK"; StatusCode := 200; Body := ("null", None) |} "null");
    try reflexivity.
  discriminate.
Defined.

Lemma refreshSession_posts_witness :
  (refreshSession (AC := mockRefusing) (mockSession grantTypeUsernamePassword) []).2 =
    [Post "https://login.salesforce.com/services/oauth2/token" "application/x-www-form-urlencoded"
       "client_id=key&client_secret=consumer-secret&grant_type=password&password=secretTOKEN&username=user@example.com"].
Proof.
  rewrite (proj1 (refreshSession_posts (AC := mockRefusing)
                    (mockSession grantTypeUsernamePassword) []) eq_refl).
  vm_compute. reflexivity.
Defined.

Lemma refreshSession_repeatable_witness :
  ∃ auth' evs,
    refreshSession (AC := mockAccepting) (mockSession grantTypeClientCredentials) [] =
      (Ret (auth', None), evs) ∧
    (refreshSession (AC := mockAccepting) auth' evs).2 = evs.
Proof.
  destruct (refreshSession (AC := mockAccepting) (mockSession grantTypeClientCredentials) [])
    as [[[auth' [err|]]|msg] evs] eqn:Hrun; try (by vm_compute in Hrun).
  exists auth', evs. split; [reflexivity|].
  exact (refreshSession_repeatable (AC := mockAccepting) _ _ _ _ _ evs Hrun).
Defined.

Lemma setAccessToken_probe_witness :
  setAccessToken (PC := mockProbe (Some (mockResponse 401), None))
    "https://na1.salesforce.com" "00Dxx" =
    ((Some {| AccessToken := "00Dxx"; InstanceUrl := "https://na1.salesforce.com"; Id := "";
              TokenType := ""; Scope := ""; IssuedAt := ""; Signature := "";
              grantType := grantTypeAccessToken; creds := Creds.mkCreds "" "" "" "" "" "" "" |},
      None),
     [(presetSession "https://na1.salesforce.com" "00Dxx",
       {| requestPayload.method := "GET"; requestPayload.uri := "/limits";
          requestPayload.content := "application/json" |})]).
Proof.
  rewrite (setAccessToken_probe (PC := mockProbe (Some (mockResponse 401), None))
             "https://na1.salesforce.com" "00Dxx" ltac:(discriminate)).
  reflexivity.
Defined.

Lemma setAccessToken_not_refreshable_witness :
  ∃ auth calls,
    setAccessToken (PC := mockProbe (Some (mockResponse 200), None))
      "https://na1.salesforce.com" "00Dxx" = ((Some auth, None), calls) ∧
    refreshSession (AC := mockAccepting) auth [] = (Ret (auth, Some invalidSession), []).
Proof.
  destruct (setAccessToken (PC := mockProbe (Some (mockResponse 200), None))
              "https://na1.salesforce.com" "00Dxx") as [[[auth|] [err|]] calls] eqn:Hset;
    try (by vm_compute in Hset).
  exists auth, calls. split; [reflexivity|].
  exact (setAccessToken_not_refreshable (PC := mockProbe (Some (mockResponse 200), None))
           (AC := mockAccepting) _ _ _ _ [] Hset).
Defined.
